(** * Test-output and coverage-report parsing of the vscode-dotnet extension

    Shallow embedding of [TestRunner.parseTestResults] (testRunner.ts) and
    of the coverage part of [CoverageProvider] (runDebugManager.ts):
    [parseCoverageFile], [parseCoberturaReport], [parseJsonReport],
    [parseLcovReport] and [getOverallCoverage].

    JavaScript strings are sequences of UTF-16 code units; they are modelled
    as [list Z].  JavaScript numbers produced by [parseFloat], [parseInt]
    and the percentage arithmetic are modelled as exact rationals [Q]. *)

From Stdlib Require Import ZArith QArith Qround List String Ascii Bool Lia.
From stdpp Require Import base list gmap.

Import ListNotations.
Open Scope Z_scope.

Abbreviation jstr := (list Z).

(** ** JavaScript string primitives *)
Module JS.

(** An ASCII string literal as a JS string (one code unit per character). *)
Definition js (s : string) : jstr :=
  map (fun a => Z.of_nat (nat_of_ascii a)) (list_ascii_of_string s).

(** LineTerminator: LF, CR, LS, PS.  The regex [.] excludes these. *)
Definition is_line_terminator (c : Z) : bool :=
  (c =? 10) || (c =? 13) || (c =? 8232) || (c =? 8233).

(** WhiteSpace ∪ LineTerminator: the class of [\s] and of [String.trim]. *)
Definition is_space (c : Z) : bool :=
  (c =? 9) || (c =? 11) || (c =? 12) || (c =? 32) || (c =? 160)
  || (c =? 5760) || ((8192 <=? c) && (c <=? 8202)) || (c =? 8239)
  || (c =? 8287) || (c =? 12288) || (c =? 65279) || is_line_terminator c.

(** [\d]: ASCII digits only. *)
Definition is_digit (c : Z) : bool := (48 <=? c) && (c <=? 57).

Fixpoint drop_spaces (s : jstr) : jstr :=
  match s with
  | c :: r => if is_space c then drop_spaces r else s
  | [] => []
  end.

(** [s.trim()] *)
Definition trim (s : jstr) : jstr := rev (drop_spaces (rev (drop_spaces s))).

(** [s.split('\n')] *)
Fixpoint split_nl (s : jstr) : list jstr :=
  match s with
  | [] => [[]]
  | c :: r =>
      if c =? 10 then [] :: split_nl r
      else match split_nl r with
           | [] => [[c]]
           | w :: ws => (c :: w) :: ws
           end
  end.

(** [xs.join('\n')] *)
Fixpoint join_nl (xs : list jstr) : jstr :=
  match xs with
  | [] => []
  | [x] => x
  | x :: r => x ++ 10 :: join_nl r
  end.

Fixpoint prefixb (p s : jstr) : bool :=
  match p, s with
  | [], _ => true
  | _, [] => false
  | a :: p', b :: s' => (a =? b) && prefixb p' s'
  end.

(** [s.startsWith(p)] *)
Definition startsWith (s p : jstr) : bool := prefixb p s.

(** [s.endsWith(p)] *)
Definition endsWith (s p : jstr) : bool := prefixb (rev p) (rev s).

(** [s.includes(p)] *)
Fixpoint includes (s p : jstr) : bool :=
  prefixb p s || match s with [] => false | _ :: s' => includes s' p end.

(** Canonicalisation of the [/i] flag without [/u]: only ASCII letters fold
    onto ASCII letters. *)
Definition fold_case (c : Z) : Z :=
  if (65 <=? c) && (c <=? 90) then c + 32 else c.

Fixpoint prefix_ci (p s : jstr) : bool :=
  match p, s with
  | [], _ => true
  | _, [] => false
  | a :: p', b :: s' => (fold_case a =? fold_case b) && prefix_ci p' s'
  end.

Definition no_line_terminator (s : jstr) : bool :=
  forallb (fun c => negb (is_line_terminator c)) s.

(** The tail [\s*(.+)$] of a pattern, with the backtracking of the greedy
    [\s*]: the first (longest) run of spaces after which the rest is a
    non-empty string without line terminators.  Returns the group. *)
Fixpoint spaces_then_dotplus (rest : jstr) : option jstr :=
  match rest with
  | [] => None
  | c :: r =>
      if is_space c then
        match spaces_then_dotplus r with
        | Some g => Some g
        | None => if no_line_terminator rest then Some rest else None
        end
      else if no_line_terminator rest then Some rest else None
  end.

(** [line.match(/^\s*<label>\s*(.+)$/i)], returning [match[1]].  The
    labels start with a letter, so [^\s*] consumes every leading space. *)
Definition match_label (label line : jstr) : option jstr :=
  let s := drop_spaces line in
  if prefix_ci label s then spaces_then_dotplus (drop (length label) s)
  else None.

(** [line.match(/^\s*<label>/i)] *)
Definition match_label_only (label line : jstr) : bool :=
  prefix_ci label (drop_spaces line).

(** [line.match(/^\s*<glyph>\s+/)] *)
Definition glyph_prefixed (g : Z) (line : jstr) : bool :=
  match drop_spaces line with
  | c :: d :: _ => (c =? g) && is_space d
  | _ => false
  end.

End JS.

Import JS.

(** ** [durationStr.match(/(\d+(?:\.\d+)?)\s*(ms|s)/)]

    The search is leftmost.  At a start position the greedy [\d+], the
    optional fraction and the greedy [\s*] never gain from backtracking to
    a shorter run: the character that would then follow is a digit or a
    space, where the pattern needs ['.'], a space, ['m'] or ['s'].  The only
    real alternative is dropping the fraction, tried after keeping it. *)
Module Duration.

Inductive unit := Ms | Sec.

(** Longest prefix of digits, and the rest. *)
Fixpoint take_digits (s : jstr) : jstr * jstr :=
  match s with
  | c :: r =>
      if is_digit c then let '(ds, rest) := take_digits r in (c :: ds, rest)
      else ([], s)
  | [] => ([], [])
  end.

Definition digits_value (ds : jstr) : Z :=
  fold_left (fun acc d => acc * 10 + (d - 48)) ds 0.

(** [parseFloat] of [d1] or of [d1 "." d2], as an exact rational. *)
Definition decimal_value (d1 d2 : jstr) : Q :=
  (inject_Z (digits_value d1)
   + inject_Z (digits_value d2) / inject_Z (10 ^ Z.of_nat (length d2)))%Q.

(** [\s*(ms|s)]: the alternation tries [ms] first. *)
Definition match_unit (s : jstr) : option unit :=
  let t := drop_spaces s in
  if prefixb (js "ms") t then Some Ms
  else if prefixb (js "s") t then Some Sec
  else None.

Definition match_at (s : jstr) : option (Q * unit) :=
  let '(d1, r1) := take_digits s in
  match d1 with
  | [] => None
  | _ :: _ =>
      let with_fraction :=
        match r1 with
        | dot :: r2 =>
            if dot =? 46 then
              let '(d2, r3) := take_digits r2 in
              match d2 with
              | [] => None
              | _ :: _ => option_map (fun u => (decimal_value d1 d2, u)) (match_unit r3)
              end
            else None
        | [] => None
        end in
      match with_fraction with
      | Some x => Some x
      | None => option_map (fun u => (decimal_value d1 [], u)) (match_unit r1)
      end
  end.

(** Leftmost match: [durationMatch[1]] parsed, and [durationMatch[2]]. *)
Fixpoint search (s : jstr) : option (Q * unit) :=
  match match_at s with
  | Some x => Some x
  | None => match s with [] => None | _ :: r => search r end
  end.

End Duration.

(** ** [TestRunner.parseTestResults] *)
Module TestOutput.

Import Duration.

Inductive Outcome := Passed | Failed | Skipped.

(** [Partial<TestResult>] as the parser builds it: a record is only ever
    created by a [Test Name:] line, so [name] is always present. *)
Record PartialTest := mkPartial {
  pt_name : jstr;
  pt_duration : option Q;
  pt_errorMessage : option jstr;
  pt_stackTrace : option jstr
}.

Record TestResult := mkResult {
  name : jstr;
  outcome : Outcome;
  duration : option Q;
  errorMessage : option jstr;
  stackTrace : option jstr
}.

(** [currentTest.outcome = o; results.push(currentTest as TestResult)] *)
Definition seal_with (o : Outcome) (p : PartialTest) : TestResult :=
  mkResult (pt_name p) o (pt_duration p) (pt_errorMessage p) (pt_stackTrace p).

(** Which branch of the [if ... else if] chain a line takes, with the
    group [match[1]] of the branches that capture one. *)
Inductive LineKind :=
  | LPassed | LFailed | LSkipped
  | LName (n : jstr) | LMethod (n : jstr) | LDuration (d : jstr)
  | LError (m : jstr) | LStack | LOther.

Definition check_mark : Z := 10003.  (* U+2713 *)
Definition cross_mark : Z := 10007.  (* U+2717 *)

Definition classify (line : jstr) : LineKind :=
  if includes line (js "Passed!") || glyph_prefixed check_mark line then LPassed
  else if includes line (js "Failed!") || glyph_prefixed cross_mark line then LFailed
  else if includes line (js "Skipped") then LSkipped
  else match match_label (js "Test Name:") line with
  | Some n => LName n
  | None =>
  match match_label (js "Test Method:") line with
  | Some n => LMethod n
  | None =>
  match match_label (js "Duration:") line with
  | Some d => LDuration d
  | None =>
  match match_label (js "Error Message:") line with
  | Some m => LError m
  | None => if match_label_only (js "Stack Trace:") line then LStack else LOther
  end end end end.

(** The loop bound [j < i + 20] of the stack-trace capture. *)
Definition stack_window : nat := 20.

(** [for (j = i + 1; j < lines.length && j < i + 20; j++)]: [following]
    is [lines[i+1..]]; a blank ([!lines[j].trim()]) line breaks. *)
Fixpoint capture (n : nat) (following : list jstr) : list jstr :=
  match n, following with
  | O, _ => []
  | _, [] => []
  | S n', l :: r => if bool_decide (trim l = []) then [] else l :: capture n' r
  end.

Record ParseState := mkState {
  results : list TestResult;
  currentTest : option PartialTest
}.

Definition init : ParseState := mkState [] None.

Definition seal (o : Outcome) (st : ParseState) : ParseState :=
  match currentTest st with
  | Some p => mkState (results st ++ [seal_with o p]) None
  | None => st
  end.

Definition update (f : PartialTest -> PartialTest) (st : ParseState) : ParseState :=
  match currentTest st with
  | Some p => mkState (results st) (Some (f p))
  | None => st
  end.

(** One iteration of the loop body on [lines[i]], seeing [lines[i+1..]]. *)
Definition step (line : jstr) (following : list jstr) (st : ParseState) : ParseState :=
  match classify line with
  | LPassed => seal Passed st
  | LFailed => seal Failed st
  | LSkipped => seal Skipped st
  | LName n => mkState (results st) (Some (mkPartial (trim n) None None None))
  | LMethod n =>
      update (fun p => if bool_decide (pt_name p = []) then
                         mkPartial (trim n) (pt_duration p) (pt_errorMessage p) (pt_stackTrace p)
                       else p) st
  | LDuration d =>
      match search (trim d) with
      | Some (v, u) =>
          let ms := match u with Sec => (v * 1000)%Q | Ms => v end in
          update (fun p => mkPartial (pt_name p) (Some ms) (pt_errorMessage p) (pt_stackTrace p)) st
      | None => st
      end
  | LError m =>
      update (fun p => mkPartial (pt_name p) (pt_duration p) (Some (trim m)) (pt_stackTrace p)) st
  | LStack =>
      update (fun p => mkPartial (pt_name p) (pt_duration p) (pt_errorMessage p)
                          (Some (join_nl (capture (stack_window - 1) following)))) st
  | LOther => st
  end.

Fixpoint run (lines : list jstr) (st : ParseState) : ParseState :=
  match lines with
  | [] => st
  | l :: following => run following (step l following st)
  end.

Definition parseTestResults (output : jstr) : list TestResult :=
  results (run (split_nl output) init).

End TestOutput.

(** ** [CoverageProvider]: report parsers, format dispatch, summary *)
Module Coverage.

Record LineInfo := mkLine { line : Z; covered : bool }.

(** [interface CoverageData] *)
Record CoverageData := mkCov {
  filePath : jstr;
  coverage : Q;
  lines : list LineInfo
}.

(** [private coverageData: Map<string, CoverageData>] *)
Abbreviation Store := (gmap jstr CoverageData).

(** [ConfigManager.getCoverageFormat]: [get('coverage.format', 'cobertura')];
    [None] is an unset setting. *)
Definition getCoverageFormat (setting : option jstr) : jstr :=
  default (js "cobertura") setting.

Inductive Parser := Cobertura | Json | Lcov.

(** The branch taken by [parseCoverageFile(filePath, format)]; [None] when
    no branch applies and nothing is parsed. *)
Definition parseCoverageFile_choice (filePath format : jstr) : option Parser :=
  if bool_decide (format = js "cobertura") || endsWith filePath (js ".xml") then Some Cobertura
  else if bool_decide (format = js "json") || endsWith filePath (js ".json") then Some Json
  else if bool_decide (format = js "lcov") || endsWith filePath (js ".lcov") then Some Lcov
  else None.

(** *** [parseCoberturaReport], over the document returned by xml2js after
    the single-element-or-array normalisation of the code.  The attribute
    strings are given already converted: [x_lineRate] is
    [parseFloat(cls.$.lineRate || '0')], [x_number] is
    [parseInt(line.$.number)], [x_hits] is [parseInt(line.$.hits || '0')]. *)
Record XmlLine := mkXmlLine { x_number : Z; x_hits : Z }.
Record XmlClass := mkXmlClass { x_filename : jstr; x_lineRate : Q; x_lines : list XmlLine }.
Record XmlPackage := mkXmlPackage { x_classes : list XmlClass }.

Definition cobertura_class (cls : XmlClass) : CoverageData :=
  mkCov (x_filename cls) (x_lineRate cls * 100)%Q
        (map (fun l => mkLine (x_number l) (0 <? x_hits l)) (x_lines cls)).

Definition parseCoberturaReport (packages : list XmlPackage) (m : Store) : Store :=
  fold_left (fun m pkg =>
    fold_left (fun m cls => <[x_filename cls := cobertura_class cls]> m) (x_classes pkg) m)
    packages m.

(** *** [parseJsonReport], over the parsed Coverlet JSON: [j_linecoverage]
    is [document.linecoverage || 0], each line entry is
    [(parseInt(lineNum), line.usages || 0)]. *)
Record JsonDocument := mkJsonDocument { j_linecoverage : Q; j_lines : list (Z * Z) }.
Record JsonModule := mkJsonModule { j_documents : list (jstr * JsonDocument) }.

Definition json_document (path : jstr) (doc : JsonDocument) : CoverageData :=
  mkCov path (j_linecoverage doc * 100)%Q
        (map (fun '(n, u) => mkLine n (0 <? u)) (j_lines doc)).

(** [this.coverageData.set(filePath, coverageData)] for one document. *)
Definition json_insert (entry : jstr * JsonDocument) (m : Store) : Store :=
  let '(path, doc) := entry in <[path := json_document path doc]> m.

Definition parseJsonReport (modules : list JsonModule) (m : Store) : Store :=
  fold_left (fun m md =>
    fold_left (fun m entry => json_insert entry m) (j_documents md) m)
    modules m.

(** *** [parseLcovReport] *)

(** [line.match(/^DA:(\d+),(\d+)$/)], with both groups through [parseInt]. *)
Definition match_DA (l : jstr) : option (Z * Z) :=
  if prefixb (js "DA:") l then
    let '(d1, r1) := Duration.take_digits (drop 3 l) in
    match d1, r1 with
    | _ :: _, 44 :: r2 =>
        let '(d2, r3) := Duration.take_digits r2 in
        match d2, r3 with
        | _ :: _, [] => Some (Duration.digits_value d1, Duration.digits_value d2)
        | _, _ => None
        end
    | _, _ => None
    end
  else None.

Record LcovState := mkLcov {
  currentFile : jstr;
  currentCoverage : option CoverageData;
  store : Store
}.

(** [(covered / currentCoverage.lines.length) * 100] *)
Definition lines_percentage (ls : list LineInfo) : Q :=
  (inject_Z (Z.of_nat (length (filter (fun l => covered l) ls)))
   / inject_Z (Z.of_nat (length ls)) * 100)%Q.

(** The record stored at [end_of_record]: the percentage is only
    recomputed when the record has lines. *)
Definition close_record (c : CoverageData) : CoverageData :=
  if bool_decide (0 < length (lines c))%nat
  then mkCov (filePath c) (lines_percentage (lines c)) (lines c)
  else c.

Definition lcov_step (l : jstr) (st : LcovState) : LcovState :=
  if startsWith l (js "SF:") then
    mkLcov (drop 3 l) (Some (mkCov (drop 3 l) 0 [])) (store st)
  else match currentCoverage st with
  | Some c =>
      if startsWith l (js "DA:") then
        match match_DA l with
        | Some (n, hits) =>
            mkLcov (currentFile st)
                   (Some (mkCov (filePath c) (coverage c) (lines c ++ [mkLine n (0 <? hits)])))
                   (store st)
        | None => st
        end
      else if bool_decide (l = js "end_of_record") then
        mkLcov (currentFile st) None (<[currentFile st := close_record c]> (store st))
      else st
  | None => st
  end.

Definition lcov_init (m : Store) : LcovState := mkLcov [] None m.

Definition lcov_run (ls : list jstr) (st : LcovState) : LcovState :=
  fold_left (fun st l => lcov_step l st) ls st.

Definition parseLcovReport (content : jstr) (m : Store) : Store :=
  store (lcov_run (split_nl content) (lcov_init m)).

(** A report file, by the parser [parseCoverageFile] hands it to. *)
Inductive Report :=
  | RCobertura (packages : list XmlPackage)
  | RJson (modules : list JsonModule)
  | RLcov (content : jstr).

Definition apply_report (r : Report) (m : Store) : Store :=
  match r with
  | RCobertura p => parseCoberturaReport p m
  | RJson j => parseJsonReport j m
  | RLcov c => parseLcovReport c m
  end.

Definition apply_reports (rs : list Report) (m : Store) : Store :=
  fold_left (fun m r => apply_report r m) rs m.

(** [getOverallCoverage] *)
Definition getOverallCoverage (m : Store) : Q :=
  if bool_decide (size m = 0%nat) then 0%Q
  else (map_fold (fun _ c total => total + coverage c) 0 m
        / inject_Z (Z.of_nat (size m)))%Q.

End Coverage.

(** ** [DotNetCli] (utils/dotnetCli.ts): project info and failure texts *)
Module Cli.

(** [a || b] on strings: [Some] is a defined value, [None] undefined; the
    empty string is falsy. *)
Definition or_else (x : option jstr) (fallback : jstr) : jstr :=
  match x with
  | Some ((_ :: _) as s) => s
  | _ => fallback
  end.

(** *** [getProjectInfo] *)

Inductive ProjectType := Console | Web | Library | Test | Unknown.

(** [interface DotNetProject] *)
Record DotNetProject := mkProject {
  path : jstr;
  name : jstr;
  type : ProjectType;
  targetFramework : jstr;
  isTestProject : bool
}.

(** The test-project indicators, tested with [includes]. *)
Definition test_indicator (content : jstr) : bool :=
  includes content (js "Microsoft.NET.Test.Sdk") || includes content (js "xunit")
  || includes content (js "nunit") || includes content (js "MSTest").

Definition project_type (content : jstr) : ProjectType :=
  if test_indicator content then Test
  else if includes content (js "Microsoft.AspNetCore") then Web
  else if includes content (js "<OutputType>Exe</OutputType>") then Console
  else Library.

(** The longest prefix without the code unit [c], and the rest. *)
Fixpoint take_until (c : Z) (s : jstr) : jstr * jstr :=
  match s with
  | [] => ([], [])
  | x :: r => if x =? c then ([], s) else let '(a, b) := take_until c r in (x :: a, b)
  end.

(** [/<tag[^>]*>([^<]+)<\/tag>/i] tried at the start of [s], returning
    [match[1]].  Each run is greedy and must be followed by the one code
    unit it excludes ([>] after [[^>]*], [<] after [[^<]+]), so a shorter
    run never matches: there is no backtracking. *)
Definition tag_match_at (tag s : jstr) : option jstr :=
  if prefix_ci (60 :: tag) s then
    match snd (take_until 62 (drop (S (length tag)) s)) with
    | _ :: r2 =>
        let '(g, r3) := take_until 60 r2 in
        match g with
        | [] => None
        | _ :: _ => if prefix_ci (60 :: 47 :: tag ++ [62]) r3 then Some g else None
        end
    | [] => None
    end
  else None.

(** [content.match(...)]: the leftmost start position wins. *)
Fixpoint tag_search (tag s : jstr) : option jstr :=
  match tag_match_at tag s with
  | Some g => Some g
  | None => match s with [] => None | _ :: r => tag_search tag r end
  end.

(** [tfMatch[1].split(';')[0]] *)
Definition first_framework (g : jstr) : jstr := fst (take_until 59 g).

Definition target_framework (content : jstr) : jstr :=
  match tag_search (js "TargetFramework") content with
  | Some g => first_framework g
  | None =>
      match tag_search (js "TargetFrameworks") content with
      | Some g => first_framework g
      | None =>
          if includes content (js "net4") || includes content (js "netframework") then js "net48"
          else if includes content (js "netstandard") then js "netstandard2.1"
          else []
      end
  end.

(** [getProjectInfo(projectPath)]: [content] is what [readFileSync] returns,
    [None] when it throws (the promise rejects).  [name] is
    [path.basename(projectPath, path.extname(projectPath))], computed by
    Node's path module and taken as given. *)
Definition getProjectInfo (projectPath name : jstr) (content : option jstr)
  : option DotNetProject :=
  match content with
  | None => None
  | Some c => Some (mkProject projectPath name (project_type c) (target_framework c)
                              (test_indicator c))
  end.

(** *** Failure texts of [executeCommand], [buildProject] and [runProject] *)

(** The fields of a caught [exec] error; [None] is undefined. *)
Record ExecError := mkExecError {
  e_stdout : option jstr;
  e_stderr : option jstr;
  e_message : option jstr
}.

(** The [enhancedError] that [executeCommand] throws: [new Error(fullOutput)]
    with [stdout] and [stderr] attached. *)
Definition executeCommand_error (e : ExecError) : ExecError :=
  let stdout := or_else (e_stdout e) [] in
  let stderr := or_else (e_stderr e) [] in
  let errorMessage := or_else (e_message e) (js "Unknown error") in
  let fullOutput := or_else (Some stdout) (or_else (Some stderr) errorMessage) in
  mkExecError (Some stdout) (Some stderr) (Some fullOutput).

(** The [error] of the result of [buildProject] when the command throws. *)
Definition buildProject_error (e : ExecError) : jstr :=
  let stdout := or_else (e_stdout e) [] in
  let stderr := or_else (e_stderr e) [] in
  or_else (Some (trim (stdout ++ [10] ++ stderr))) (or_else (e_message e) (js "Build failed")).

(** [xs.join(sep)] *)
Fixpoint join_with (sep : jstr) (xs : list jstr) : jstr :=
  match xs with
  | [] => []
  | [x] => x
  | x :: r => x ++ sep ++ join_with sep r
  end.

(** [shortError] of [RunDebugManager.runProject] and [debugProject], from
    [buildResult.error]. *)
Definition short_error (error : option jstr) : jstr :=
  let errorMsg := or_else error (js "Build failed") in
  let errorLines := List.filter (fun l => negb (bool_decide (trim l = []))) (split_nl errorMsg) in
  match errorLines with
  | [] => errorMsg
  | _ :: _ => join_with (js " | ") (firstn 3 errorLines)
  end.

End Cli.

(** ** [LaunchProfileManager] (utils/launchProfileManager.ts): arguments *)
Module Profiles.

Import Cli.

(** [s.split(sep)] for a one-code-unit separator. *)
Fixpoint split_on (sep : Z) (s : jstr) : list jstr :=
  match s with
  | [] => [[]]
  | c :: r =>
      if c =? sep then [] :: split_on sep r
      else match split_on sep r with
           | [] => [[c]]
           | w :: ws => (c :: w) :: ws
           end
  end.

(** [arg.length > 0] *)
Definition nonempty (s : jstr) : bool := negb (bool_decide (s = [])).

(** [getProfileCommandLineArgs(profile)]: [commandLineArgs] is [None] when
    the profile has none. *)
Definition getProfileCommandLineArgs (commandLineArgs : option jstr) : jstr :=
  match commandLineArgs with
  | Some ((_ :: _) as a) => join_with (js " ") (List.filter nonempty (split_on 32 a))
  | _ => []
  end.

(** The [args] array [createLaunchConfiguration] builds for a profile it
    found. *)
Definition launch_args (commandLineArgs : option jstr) : list jstr :=
  match getProfileCommandLineArgs commandLineArgs with
  | [] => []
  | profileArgs => List.filter nonempty (split_on 32 profileArgs)
  end.

End Profiles.

(** ** [ProjectDetector.detectProjects] (projectDetector.ts) *)
Module Detector.

Import Cli.

Record DetectorState := mkDetector {
  projects : list DotNetProject;
  currentProject : option DotNetProject
}.

(** One project file of the loop: [.sln] files are skipped; [existsSync] is
    [fs.existsSync]; [name_of] and [read] feed [getProjectInfo], whose
    rejection the [catch] skips. *)
Definition load_project (existsSync : jstr -> bool) (name_of : jstr -> jstr)
    (read : jstr -> option jstr) (file : jstr) : option DotNetProject :=
  if endsWith file (js ".sln") then None
  else if existsSync file then getProjectInfo file (name_of file) (read file)
  else None.

Definition detected (load : jstr -> option DotNetProject) (projectFiles : list jstr)
  : list DotNetProject :=
  flat_map (fun f => match load f with Some p => [p] | None => [] end) projectFiles.

(** [detectProjects()]: [autoDetect] is [isAutoDetectEnabled()],
    [hasFolders] whether the workspace has folders, [projectFiles] what the
    [findFiles] searches returned, in order. *)
Definition detectProjects (autoDetect hasFolders : bool) (projectFiles : list jstr)
    (load : jstr -> option DotNetProject) (st : DetectorState) : DetectorState :=
  if negb autoDetect then st
  else if negb hasFolders then st
  else match projectFiles with
  | [] => mkDetector [] (currentProject st)
  | _ :: _ =>
      match detected load projectFiles with
      | [] => mkDetector [] (currentProject st)
      | (p0 :: _) as ps =>
          mkDetector ps (Some (match List.filter (fun p => negb (isTestProject p)) ps with
                               | q :: _ => q
                               | [] => p0
                               end))
      end
  end.

End Detector.

(** ** [TestRunner] (testRunner.ts): discovery and the result map *)
Module TestStore.

Import TestOutput.

(** [line.match("/^\s*(\S+.*)$/")], returning [match[1]].  The greedy [\s*]
    takes every leading space (giving one back would put a space under
    [\S]); [\S+.*] must then reach the end, and neither [\S] nor [.]
    matches a line terminator. *)
Definition match_test_line (line : jstr) : option jstr :=
  match drop_spaces line with
  | [] => None
  | r => if no_line_terminator r then Some r else None
  end.

(** The loop of [discoverTests] over [output.split('\n')]. *)
Fixpoint collect_names (lines : list jstr) : list jstr :=
  match lines with
  | [] => []
  | l :: rest =>
      match match_test_line l with
      | Some g => if bool_decide (trim g = []) then collect_names rest
                  else trim g :: collect_names rest
      | None => collect_names rest
      end
  end.

(** [discoverTests]: [listed] is the output of [listTests], [None] when it
    throws (the [catch] returns []). *)
Definition discoverTests (listed : option jstr) : list jstr :=
  match listed with
  | Some output => collect_names (split_nl output)
  | None => []
  end.

(** [Map<string, TestResult[]>], in insertion order. *)
Abbreviation ResultMap := (list (jstr * list TestResult)).

(** [map.get(k)] *)
Fixpoint map_get (k : jstr) (m : ResultMap) : option (list TestResult) :=
  match m with
  | [] => None
  | (k', v) :: r => if bool_decide (k' = k) then Some v else map_get k r
  end.

(** [map.set(k, v)]: a present key keeps its place, a new key goes last. *)
Fixpoint map_set (k : jstr) (v : list TestResult) (m : ResultMap) : ResultMap :=
  match m with
  | [] => [(k, v)]
  | (k', v') :: r =>
      if bool_decide (k' = k) then (k', v) :: r else (k', v') :: map_set k v r
  end.

(** [getTestResults(projectPath?)]: [None] is an omitted argument; the
    empty string is falsy as well. *)
Definition getTestResults (projectPath : option jstr) (m : ResultMap) : list TestResult :=
  match projectPath with
  | Some ((_ :: _) as p) => default [] (map_get p m)
  | _ => concat (map snd m)
  end.

Record Summary := mkSummary { passed : nat; failed : nat; skipped : nat; total : nat }.

Definition outcome_eqb (a b : Outcome) : bool :=
  match a, b with
  | Passed, Passed | Failed, Failed | Skipped, Skipped => true
  | _, _ => false
  end.

(** [allResults.filter(r => r.outcome === o).length] *)
Definition count_outcome (o : Outcome) (rs : list TestResult) : nat :=
  length (List.filter (fun r => outcome_eqb (outcome r) o) rs).

Definition getTestSummary (m : ResultMap) : Summary :=
  let allResults := getTestResults None m in
  mkSummary (count_outcome Passed allResults) (count_outcome Failed allResults)
            (count_outcome Skipped allResults) (length allResults).

(** [runTestsForProject(projectPath)]: [stdout] is what [runTests]
    resolves to, [None] when it throws.  The returned list and the map. *)
Definition runTestsForProject (projectPath : jstr) (stdout : option jstr) (m : ResultMap)
  : list TestResult * ResultMap :=
  match stdout with
  | Some output =>
      let results := parseTestResults output in (results, map_set projectPath results m)
  | None => ([], m)
  end.

(** The map after the loop of [runAllTests] over the test projects;
    [cli p] is the output of [runTests(p)] ([None] when it throws). *)
Definition runAllTests (projects : list Cli.DotNetProject) (cli : jstr -> option jstr)
    (m : ResultMap) : ResultMap :=
  fold_left (fun m p => snd (runTestsForProject (Cli.path p) (cli (Cli.path p)) m))
            (List.filter Cli.isTestProject projects) m.

End TestStore.

(** ** [CoverageProvider.parseCoverageReport]: the report file it reads *)
Module CoverageReport.

Import Coverage.

(** [coverageFiles], relative to [path.dirname(projectPath)].  [path.join]
    keeps the last segment as written, so the [endsWith] tests of
    [parseCoverageFile] give the same answer on these relative names. *)
Definition coverageFiles : list jstr :=
  [js "coverage.cobertura.xml"; js "coverage.json"; js "coverage.lcov";
   js "coverage/coverage.cobertura.xml"; js "coverage/coverage.json"].

(** The first candidate that exists ([existsSync] is [fs.existsSync] on the
    joined path); the loop breaks after it. *)
Definition report_file (existsSync : jstr -> bool) : option jstr :=
  find existsSync coverageFiles.

(** The parser [parseCoverageReport] ends up calling, if any. *)
Definition parseCoverageReport_choice (format : jstr) (existsSync : jstr -> bool) : option Parser :=
  match report_file existsSync with
  | Some f => parseCoverageFile_choice f format
  | None => None
  end.

End CoverageReport.

(** ** [StatusBar] (ui/statusBar.ts) *)
Module StatusBar.

(** [Number.prototype.toString] on a non-negative integer. *)
Fixpoint digits_fuel (fuel : nat) (n : Z) : jstr :=
  match fuel with
  | O => []
  | S f => if n <? 10 then [48 + n] else digits_fuel f (n / 10) ++ [48 + n mod 10]
  end.

Definition show_nat (n : nat) : jstr := digits_fuel (S n) (Z.of_nat n).

(** [updateTestStatus(passed, failed, total)] on the button text. *)
Definition updateTestStatus (passed failed total : nat) (text : jstr) : jstr :=
  if (0 <? total)%nat then
    (if (0 <? failed)%nat then js "$(error)" else js "$(check)")
    ++ js " Tests: " ++ show_nat passed ++ js "/" ++ show_nat total
  else text.

(** The [onTestResultsChanged] listener of [activate] (extension.ts). *)
Definition on_test_results_changed (m : TestStore.ResultMap) (text : jstr) : jstr :=
  let s := TestStore.getTestSummary m in
  updateTestStatus (TestStore.passed s) (TestStore.failed s) (TestStore.total s) text.

Inductive Icon := IconCheck | IconWarning | IconError.

Definition icon_text (i : Icon) : jstr :=
  match i with
  | IconCheck => js "$(check)"
  | IconWarning => js "$(warning)"
  | IconError => js "$(error)"
  end.

Definition coverage_icon (coverage : Q) : Icon :=
  if Qle_bool 80 coverage then IconCheck
  else if Qle_bool 50 coverage then IconWarning
  else IconError.

(** [x.toFixed(1)] for [0 <= x < 1e21]: [n] is the integer closest to
    [10 x], the larger one on a tie. *)
Definition toFixed1 (x : Q) : jstr :=
  let n := Qfloor (10 * x + (1 # 2))%Q in
  show_nat (Z.to_nat (n / 10)) ++ js "." ++ show_nat (Z.to_nat (n mod 10)).

(** [updateCoverageStatus(coverage)] on the button text. *)
Definition updateCoverageStatus (coverage : Q) (text : jstr) : jstr :=
  if Qle_bool 0 coverage then
    icon_text (coverage_icon coverage) ++ js " Coverage: " ++ toFixed1 coverage ++ js "%"
  else text.

End StatusBar.

(** ** [getProfileWorkingDirectory] (utils/launchProfileManager.ts), the
    [cwd] of [createLaunchConfiguration] *)
Module Launch.

Import Cli.

(** [GetSubstitution] of [String.prototype.replace] for a pattern without
    capture groups: [$$] is [$], [$&] the match, [$`] the text before it,
    [$'] the text after it; any other [$] (with a digit or [<] after it,
    which refer to no group) is kept as written. *)
Fixpoint get_substitution (replacement matched before after : jstr) : jstr :=
  match replacement with
  | [] => []
  | c :: r =>
      if c =? 36 then
        match r with
        | d :: r' =>
            if d =? 36 then 36 :: get_substitution r' matched before after
            else if d =? 38 then matched ++ get_substitution r' matched before after
            else if d =? 96 then before ++ get_substitution r' matched before after
            else if d =? 39 then after ++ get_substitution r' matched before after
            else 36 :: get_substitution r matched before after
        | [] => [36]
        end
      else c :: get_substitution r matched before after
  end.

(** [full.replace(/tok/g, replacement)] for a literal, non-empty [tok]:
    the matches are found left to right without overlap; [pos] is the
    index of [s] in [full]. *)
Fixpoint replace_go (fuel : nat) (tok replacement full : jstr) (pos : nat) (s : jstr) : jstr :=
  match fuel with
  | O => s
  | S f =>
      match s with
      | [] => []
      | c :: r =>
          if prefixb tok s then
            get_substitution replacement tok (firstn pos full) (drop (pos + length tok) full)
            ++ replace_go f tok replacement full (pos + length tok) (drop (length tok) s)
          else c :: replace_go f tok replacement full (S pos) r
      end
  end.

Definition replace_all (tok replacement s : jstr) : jstr :=
  replace_go (S (length s)) tok replacement s 0 s.

(** [/\$\(ProjectDir\)/g] and [/\$\{ProjectDir\}/g] *)
Definition paren_token : jstr := js "$(ProjectDir)".
Definition brace_token : jstr := js "${ProjectDir}".

(** [getProfileWorkingDirectory(profile, projectPath)]: [workingDirectory]
    is [profile.workingDirectory] ([None] when undefined), [projectDir] is
    [path.dirname(projectPath)]; [isAbsolute] and [resolve] are Node's
    [path.isAbsolute] and [path.resolve], taken as given. *)
Definition getProfileWorkingDirectory (isAbsolute : jstr -> bool) (resolve : jstr -> jstr -> jstr)
    (workingDirectory : option jstr) (projectDir : jstr) : option jstr :=
  match workingDirectory with
  | Some ((_ :: _) as wd) =>
      let workingDir := replace_all paren_token projectDir wd in
      let workingDir := replace_all brace_token projectDir workingDir in
      Some (if isAbsolute workingDir then workingDir else resolve projectDir workingDir)
  | _ => None
  end.

End Launch.

(** * The duration pattern: what [Duration.search] finds *)
Module DurationFacts.

Import Duration.

Definition unit_text (u : unit) : jstr :=
  match u with Ms => js "ms" | Sec => js "s" end.

Definition fraction (d2 : jstr) : jstr :=
  match d2 with [] => [] | _ :: _ => 46 :: d2 end.

(** [s] contains a number ([\d+] with an optional [.\d+]) of value [v],
    optional spaces, then the unit text of [u]. *)
Definition number_with_unit (s : jstr) (v : Q) (u : unit) : Prop :=
  exists pre d1 d2 sp rest,
    s = pre ++ d1 ++ fraction d2 ++ sp ++ unit_text u ++ rest /\
    d1 <> [] /\ Forall (fun c => is_digit c = true) d1 /\
    Forall (fun c => is_digit c = true) d2 /\
    Forall (fun c => is_space c = true) sp /\ v = decimal_value d1 d2.

Definition head_not_digit (r : jstr) : Prop :=
  match r with c :: _ => is_digit c = false | [] => True end.

Lemma take_digits_spec (s ds r : jstr) :
  take_digits s = (ds, r) ->
  s = ds ++ r /\ Forall (fun c => is_digit c = true) ds /\ head_not_digit r.
Proof.
  revert ds r. induction s as [|c s IH]; intros ds r H; cbn [take_digits] in H.
  - injection H as <- <-. repeat split; constructor.
  - destruct (is_digit c) eqn:Ec.
    + destruct (take_digits s) as [ds' r'] eqn:E. injection H as <- <-.
      destruct (IH _ _ eq_refl) as (-> & Hd & Hr). repeat split; [constructor|..]; auto.
    + injection H as <- <-. repeat split; [constructor|exact Ec].
Qed.

Lemma take_digits_app (ds r : jstr) :
  Forall (fun c => is_digit c = true) ds -> head_not_digit r ->
  take_digits (ds ++ r) = (ds, r).
Proof.
  intros Hd Hr. induction Hd as [|c ds Hc Hd IH]; cbn [take_digits app].
  - destruct r as [|c r]; [reflexivity|]. cbn [head_not_digit] in Hr.
    cbn [take_digits]. rewrite Hr. reflexivity.
  - rewrite Hc, IH. reflexivity.
Qed.

Lemma drop_spaces_spec (s : jstr) :
  exists sp, s = sp ++ drop_spaces s /\ Forall (fun c => is_space c = true) sp.
Proof.
  induction s as [|c s IH]; cbn [drop_spaces].
  - exists []. split; [reflexivity|constructor].
  - destruct (is_space c) eqn:Ec.
    + destruct IH as (sp & Hs & Hsp). exists (c :: sp). simpl. rewrite <- Hs.
      split; [reflexivity|constructor; assumption].
    + exists []. split; [reflexivity|constructor].
Qed.

Lemma drop_spaces_app (sp r : jstr) :
  Forall (fun c => is_space c = true) sp -> drop_spaces (sp ++ r) = drop_spaces r.
Proof.
  intros H. induction H as [|c sp Hc _ IH]; cbn [drop_spaces app]; [reflexivity|].
  rewrite Hc. exact IH.
Qed.

Lemma prefixb_spec (p t : jstr) : prefixb p t = true <-> exists r, t = p ++ r.
Proof.
  revert t. induction p as [|a p IH]; intros t; simpl.
  - split; [intros _; exists t; reflexivity | reflexivity].
  - destruct t as [|b t].
    + split; [discriminate | intros [r Hr]; discriminate].
    + rewrite andb_true_iff, Z.eqb_eq, IH. split.
      * intros [-> [r ->]]. exists r. reflexivity.
      * intros [r Hr]. injection Hr as -> ->. split; [reflexivity|exists r; reflexivity].
Qed.

Lemma match_unit_sound (s : jstr) (u : unit) :
  match_unit s = Some u ->
  exists sp rest, s = sp ++ unit_text u ++ rest /\ Forall (fun c => is_space c = true) sp.
Proof.
  unfold match_unit. destruct (drop_spaces_spec s) as (sp & Hs & Hsp).
  intros H. exists sp. rewrite Hs. clear Hs.
  destruct (prefixb (js "ms") (drop_spaces s)) eqn:E1.
  - injection H as <-. apply prefixb_spec in E1. destruct E1 as [r ->].
    exists r. split; [reflexivity|exact Hsp].
  - destruct (prefixb (js "s") (drop_spaces s)) eqn:E2; [|discriminate].
    injection H as <-. apply prefixb_spec in E2. destruct E2 as [r ->].
    exists r. split; [reflexivity|exact Hsp].
Qed.

Lemma match_unit_complete (sp rest : jstr) (u : unit) :
  Forall (fun c => is_space c = true) sp -> match_unit (sp ++ unit_text u ++ rest) <> None.
Proof.
  intros Hsp. unfold match_unit. rewrite drop_spaces_app by exact Hsp.
  destruct u; simpl; [discriminate|].
  destruct rest as [|c rest]; [discriminate|].
  destruct (c =? 115); simpl; discriminate.
Qed.

Lemma match_at_sound (s : jstr) (v : Q) (u : unit) :
  match_at s = Some (v, u) ->
  exists d1 d2 sp rest,
    s = d1 ++ fraction d2 ++ sp ++ unit_text u ++ rest /\
    d1 <> [] /\ Forall (fun c => is_digit c = true) d1 /\
    Forall (fun c => is_digit c = true) d2 /\
    Forall (fun c => is_space c = true) sp /\ v = decimal_value d1 d2.
Proof.
  unfold match_at. destruct (take_digits s) as [d1 r1] eqn:E1.
  destruct (take_digits_spec _ _ _ E1) as (-> & Hd1 & _).
  destruct d1 as [|x d1]; [discriminate|].
  assert (Hfb : option_map (fun u => (decimal_value (x :: d1) [], u)) (match_unit r1) = Some (v, u) ->
    exists d1' d2 sp rest,
      (x :: d1) ++ r1 = d1' ++ fraction d2 ++ sp ++ unit_text u ++ rest /\
      d1' <> [] /\ Forall (fun c => is_digit c = true) d1' /\
      Forall (fun c => is_digit c = true) d2 /\
      Forall (fun c => is_space c = true) sp /\ v = decimal_value d1' d2).
  { intros H. destruct (match_unit r1) as [u'|] eqn:Eu; [|discriminate].
    injection H as <- <-. destruct (match_unit_sound _ _ Eu) as (sp & rest & -> & Hsp).
    exists (x :: d1), [], sp, rest. repeat split; auto; try discriminate; constructor. }
  destruct r1 as [|dot r2]; [exact Hfb|].
  destruct (dot =? 46) eqn:Edot; [|exact Hfb].
  destruct (take_digits r2) as [d2 r3] eqn:E2.
  destruct d2 as [|y d2]; [exact Hfb|].
  destruct (match_unit r3) as [u'|] eqn:E3; [|exact Hfb].
  cbn [option_map]. intros H. injection H as <- <-.
  apply Z.eqb_eq in Edot. subst dot.
  destruct (take_digits_spec _ _ _ E2) as (-> & Hd2 & _).
  destruct (match_unit_sound _ _ E3) as (sp & rest & -> & Hsp).
  exists (x :: d1), (y :: d2), sp, rest. repeat split; auto; discriminate.
Qed.

Lemma search_sound (s : jstr) (v : Q) (u : unit) :
  search s = Some (v, u) -> number_with_unit s v u.
Proof.
  induction s as [|c s IH]; intros H; cbn [search] in H.
  - destruct (match_at []) as [[v' u']|] eqn:E; [|discriminate].
    injection H as -> ->. destruct (match_at_sound _ _ _ E) as (d1 & d2 & sp & rest & Hs & Hrest).
    exists [], d1, d2, sp, rest. split; [exact Hs|exact Hrest].
  - destruct (match_at (c :: s)) as [[v' u']|] eqn:E.
    + injection H as -> ->. destruct (match_at_sound _ _ _ E) as (d1 & d2 & sp & rest & Hs & Hrest).
      exists [], d1, d2, sp, rest. split; [exact Hs|exact Hrest].
    + destruct (IH H) as (pre & d1 & d2 & sp & rest & Hs & Hrest).
      exists (c :: pre), d1, d2, sp, rest. split; [rewrite Hs; reflexivity|exact Hrest].
Qed.

Lemma unit_text_head (u : unit) (sp rest : jstr) :
  Forall (fun c => is_space c = true) sp ->
  exists c r, sp ++ unit_text u ++ rest = c :: r /\ is_digit c = false /\ c <> 46.
Proof.
  intros Hsp. destruct Hsp as [|c sp Hc _].
  - destruct u; simpl; eexists _, _; (split; [reflexivity|split; [reflexivity|discriminate]]).
  - exists c, (sp ++ unit_text u ++ rest). split; [reflexivity|].
    unfold is_space, is_line_terminator in Hc. unfold is_digit.
    repeat rewrite orb_true_iff in Hc. rewrite ?andb_true_iff, ?Z.eqb_eq, ?Z.leb_le in Hc.
    split; [|intros ->; repeat destruct Hc as [Hc|Hc]; lia].
    apply not_true_is_false. rewrite andb_true_iff, !Z.leb_le.
    intros Hd. repeat destruct Hc as [Hc|Hc]; lia.
Qed.

Lemma match_at_complete (d1 d2 sp rest : jstr) (u : unit) :
  d1 <> [] -> Forall (fun c => is_digit c = true) d1 ->
  Forall (fun c => is_digit c = true) d2 -> Forall (fun c => is_space c = true) sp ->
  match_at (d1 ++ fraction d2 ++ sp ++ unit_text u ++ rest) <> None.
Proof.
  intros Hne Hd1 Hd2 Hsp. unfold match_at.
  destruct (unit_text_head u sp rest Hsp) as (c & r & Hcr & Hcd & Hc46).
  destruct d2 as [|y d2].
  - cbn [fraction app]. rewrite take_digits_app; [|exact Hd1|rewrite Hcr; exact Hcd].
    destruct d1 as [|x d1]; [contradiction|].
    rewrite Hcr. apply Z.eqb_neq in Hc46. rewrite Hc46. rewrite <- Hcr.
    cbn beta iota zeta.
    destruct (match_unit (sp ++ unit_text u ++ rest)) eqn:E; [discriminate|].
    exfalso. exact (match_unit_complete sp rest u Hsp E).
  - cbn [fraction]. rewrite take_digits_app; [|exact Hd1|reflexivity].
    destruct d1 as [|x d1]; [contradiction|].
    rewrite <- app_comm_cons. cbn iota beta. rewrite Z.eqb_refl. rewrite take_digits_app; [|exact Hd2|rewrite Hcr; exact Hcd].
    destruct (match_unit (sp ++ unit_text u ++ rest)) eqn:E; [discriminate|].
    exfalso. exact (match_unit_complete sp rest u Hsp E).
Qed.

Lemma search_complete (s : jstr) (v : Q) (u : unit) :
  number_with_unit s v u -> search s <> None.
Proof.
  intros (pre & d1 & d2 & sp & rest & -> & Hne & Hd1 & Hd2 & Hsp & _).
  induction pre as [|c pre IH]; cbn [app].
  - destruct (d1 ++ fraction d2 ++ sp ++ unit_text u ++ rest) as [|c r] eqn:E;
      cbn [search]; rewrite <- E;
      destruct (match_at (d1 ++ fraction d2 ++ sp ++ unit_text u ++ rest)) eqn:Em;
      try discriminate; exfalso; exact (match_at_complete d1 d2 sp rest u Hne Hd1 Hd2 Hsp Em).
  - cbn [search]. destruct (match_at _); [discriminate|exact IH].
Qed.

End DurationFacts.

(** * Properties of the test-output parser *)
Module TestOutputFacts.

Import Duration TestOutput.

(** The lines the [if] chain sends to a pass/fail/skip branch. *)
Definition is_terminal (l : jstr) : bool :=
  match classify l with LPassed | LFailed | LSkipped => true | _ => false end.

Lemma step_nonterminal_results (l : jstr) (f : list jstr) (st : ParseState) :
  is_terminal l = false -> results (step l f st) = results st.
Proof.
  unfold is_terminal, step. intros H.
  destruct (classify l); try discriminate; unfold update;
    try (destruct (search _) as [[? []]|]); destruct (currentTest st); reflexivity.
Qed.

(** ** C10 *)

(** C10: the terminal tests come first in the [if] chain: a line that
    contains [Passed!], [Failed!] or [Skipped], or starts with a check or
    cross glyph, seals the open record (or does nothing when none is open)
    and leaves the slot empty, even when it also reads as [Test Name: ...];
    it never opens a record or sets a name. *)
Theorem terminal_before_name (l : jstr) (f : list jstr) (st : ParseState) :
  (includes l (js "Passed!") || glyph_prefixed check_mark l
   || includes l (js "Failed!") || glyph_prefixed cross_mark l
   || includes l (js "Skipped")) = true ->
  currentTest (step l f st) = None /\
  exists o, results (step l f st)
            = results st ++ match currentTest st with
                             | Some p => [seal_with o p]
                             | None => []
                             end.
Proof.
  intros H. unfold step, classify.
  destruct (includes l (js "Passed!")), (glyph_prefixed check_mark l),
    (includes l (js "Failed!")), (glyph_prefixed cross_mark l),
    (includes l (js "Skipped")); simpl in H; try discriminate;
    unfold seal; destruct st as [rs [p|]]; simpl;
    (split; [reflexivity | first [ exists Passed; reflexivity
                                 | exists Failed; reflexivity
                                 | exists Skipped; reflexivity
                                 | exists Passed; rewrite app_nil_r; reflexivity ]]).
Qed.

(** A [Test Name:] line whose name contains [Skipped] seals the open record. *)
Definition open_A : ParseState := mkState [] (Some (mkPartial (js "A") None None None)).

Lemma terminal_before_name_witness :
  (includes (js "Test Name: FooSkipped") (js "Passed!")
   || glyph_prefixed check_mark (js "Test Name: FooSkipped")
   || includes (js "Test Name: FooSkipped") (js "Failed!")
   || glyph_prefixed cross_mark (js "Test Name: FooSkipped")
   || includes (js "Test Name: FooSkipped") (js "Skipped")) = true /\
  (currentTest (step (js "Test Name: FooSkipped") [] open_A) = None /\
   exists o, results (step (js "Test Name: FooSkipped") [] open_A)
             = results open_A ++ match currentTest open_A with
                                  | Some p => [seal_with o p]
                                  | None => []
                                  end).
Proof.
  split; [vm_compute; reflexivity |].
  apply terminal_before_name. vm_compute. reflexivity.
Defined.

(** ** C7 *)

(** C7: once no terminal marker line is left in the input, no record is
    emitted any more: whatever record is open (or opened later) when the
    input ends is discarded.  In particular a lone name marker yields []. *)
Theorem open_record_dropped (lines : list jstr) (st : ParseState) :
  Forall (fun l => is_terminal l = false) lines ->
  results (run lines st) = results st.
Proof.
  revert st. induction lines as [|l ls IH]; intros st H; simpl; [reflexivity|].
  inversion H as [|? ? Hl Hls]; subst.
  rewrite IH by exact Hls. apply step_nonterminal_results. exact Hl.
Qed.

Lemma open_record_dropped_witness :
  Forall (fun l => is_terminal l = false) (split_nl (js "Test Name: Addition_ReturnsSum")) /\
  parseTestResults (js "Test Name: Addition_ReturnsSum") = [].
Proof.
  assert (H : Forall (fun l => is_terminal l = false)
                (split_nl (js "Test Name: Addition_ReturnsSum"))).
  { vm_compute. repeat constructor. }
  split; [exact H |].
  unfold parseTestResults. rewrite (open_record_dropped _ init H). reflexivity.
Defined.

(** ** C3 *)

(** A later [Test Name:] line replaces the open record named [A]. *)
Lemma name_marker_overwrites_counterexample :
  option_map pt_name (currentTest open_A) = Some (js "A") /\
  option_map pt_name (currentTest (step (js "Test Name: B") [] open_A)) = Some (js "B") /\
  parseTestResults (join_nl [js "Test Name: A"; js "Test Name: B"; js "Passed!"])
  = [mkResult (js "B") Passed None None None].
Proof. vm_compute. repeat split. Qed.

(** C3 (amended): a [Test Name:] line always opens a fresh record named by
    its trimmed text, replacing any open record with all its fields; a
    [Test Method:] line sets the name of the open record only when that name
    is empty, and does nothing when no record is open.  Neither emits. *)
Theorem name_markers (l n : jstr) (f : list jstr) (st : ParseState) :
  (classify l = LName n ->
   results (step l f st) = results st /\
   currentTest (step l f st) = Some (mkPartial (trim n) None None None)) /\
  (classify l = LMethod n ->
   results (step l f st) = results st /\
   currentTest (step l f st)
   = option_map (fun p => if bool_decide (pt_name p = [])
                          then mkPartial (trim n) (pt_duration p) (pt_errorMessage p) (pt_stackTrace p)
                          else p) (currentTest st)).
Proof.
  split; intros H; unfold step; rewrite H; [split; reflexivity |].
  unfold update. destruct st as [rs [p|]]; simpl; split; reflexivity.
Qed.

Lemma name_markers_witness :
  classify (js "Test Method: M") = LMethod (js "M") /\
  (results (step (js "Test Method: M") [] open_A) = results open_A /\
   currentTest (step (js "Test Method: M") [] open_A)
   = option_map (fun p => if bool_decide (pt_name p = [])
                          then mkPartial (trim (js "M")) (pt_duration p) (pt_errorMessage p) (pt_stackTrace p)
                          else p) (currentTest open_A)).
Proof.
  assert (H : classify (js "Test Method: M") = LMethod (js "M")) by (vm_compute; reflexivity).
  split; [exact H |].
  exact (proj2 (name_markers (js "Test Method: M") (js "M") [] open_A) H).
Defined.

(** ** C2 *)

Lemma capture_all_nonblank (n : nat) (f : list jstr) :
  Forall (fun x => trim x <> []) (firstn n f) -> capture n f = firstn n f.
Proof.
  revert f. induction n as [|n IH]; intros f H; [reflexivity|].
  destruct f as [|x f]; [reflexivity|].
  simpl in H |- *. inversion H as [|? ? Hx Hf]; subst.
  rewrite bool_decide_false by exact Hx. f_equal. apply IH. exact Hf.
Qed.

Lemma capture_stops_at_blank (n : nat) (pre : list jstr) (b : jstr) (post : list jstr) :
  Forall (fun x => trim x <> []) pre -> trim b = [] -> (length pre < n)%nat ->
  capture n (pre ++ b :: post) = pre.
Proof.
  revert n. induction pre as [|x pre IH]; intros n Hpre Hb Hn.
  - destruct n; [lia|]. simpl. rewrite bool_decide_true by exact Hb. reflexivity.
  - destruct n; [simpl in Hn; lia|]. inversion Hpre; subst. simpl.
    rewrite bool_decide_false by assumption. f_equal. apply IH; [assumption..|simpl in Hn; lia].
Qed.

(** C2 (code defect): on a stack-trace marker line with a record open, the
    capture keeps the following lines up to the first blank one and does not
    seal the record; but [j < i + 20] starting from [j = i + 1] keeps at
    most 19 lines: with 20 or more non-blank lines following, the trace is
    exactly the first 19. *)
Theorem stack_trace_capture (l : jstr) (f : list jstr) (st : ParseState) (p : PartialTest) :
  classify l = LStack -> currentTest st = Some p ->
  Forall (fun x => trim x <> []) (firstn stack_window f) ->
  results (step l f st) = results st /\
  currentTest (step l f st)
  = Some (mkPartial (pt_name p) (pt_duration p) (pt_errorMessage p)
                    (Some (join_nl (firstn 19 f)))).
Proof.
  intros Hl Hc Hf. unfold step. rewrite Hl. unfold update. rewrite Hc.
  rewrite capture_all_nonblank; [split; reflexivity|].
  unfold stack_window in Hf. simpl.
  destruct (Nat.le_gt_cases 19 (length f)) as [Hle|Hgt].
  - rewrite <- (take_drop 19 f) in Hf. rewrite firstn_app in Hf.
    apply Forall_app in Hf. destruct Hf as [Hf _].
    rewrite (firstn_all2 (firstn 19 f)) in Hf; [exact Hf|].
    rewrite length_firstn. lia.
  - rewrite firstn_all2 in Hf by lia. rewrite firstn_all2 by lia. exact Hf.
Qed.

Definition frames : list jstr := repeat (js "   at Calc.Divide()") 20.

Lemma stack_trace_capture_witness :
  classify (js "Stack Trace:") = LStack /\
  currentTest open_A = Some (mkPartial (js "A") None None None) /\
  Forall (fun x => trim x <> []) (firstn stack_window frames) /\
  (results (step (js "Stack Trace:") frames open_A) = results open_A /\
   currentTest (step (js "Stack Trace:") frames open_A)
   = Some (mkPartial (js "A") None None (Some (join_nl (firstn 19 frames))))).
Proof.
  assert (H1 : classify (js "Stack Trace:") = LStack) by (vm_compute; reflexivity).
  assert (H2 : currentTest open_A = Some (mkPartial (js "A") None None None)) by reflexivity.
  assert (H3 : Forall (fun x => trim x <> []) (firstn stack_window frames)).
  { vm_compute. repeat constructor; discriminate. }
  split; [exact H1|]. split; [exact H2|]. split; [exact H3|].
  exact (stack_trace_capture _ _ _ _ H1 H2 H3).
Defined.

(** The whole parse on twenty non-blank frame lines keeps nineteen. *)
Lemma stack_trace_nineteen_lines :
  parseTestResults (join_nl ([js "Test Name: A"; js "Stack Trace:"] ++ frames ++ [js "Failed!"]))
  = [mkResult (js "A") Failed None None
       (Some (join_nl (repeat (js "   at Calc.Divide()") 19)))].
Proof. vm_compute. reflexivity. Qed.

(** ** C8 *)

(** C8: a line the parser takes as a duration marker, with a record open,
    sets [duration] from the leftmost number-plus-unit of its text: the
    number as is for [ms], times 1000 for [s]; the unit can only be [ms] or
    [s].  A number-plus-unit is found exactly when the text contains one;
    when it contains none, the record is left as it was, so an absent
    duration stays absent.  No record is sealed. *)
Theorem duration_line (l d : jstr) (f : list jstr) (st : ParseState) :
  classify l = LDuration d ->
  results (step l f st) = results st /\
  currentTest (step l f st)
  = option_map (fun p =>
      match search (trim d) with
      | Some (v, Ms) => mkPartial (pt_name p) (Some v) (pt_errorMessage p) (pt_stackTrace p)
      | Some (v, Sec) => mkPartial (pt_name p) (Some (v * 1000)%Q) (pt_errorMessage p) (pt_stackTrace p)
      | None => p
      end) (currentTest st) /\
  (forall v u, search (trim d) = Some (v, u) -> DurationFacts.number_with_unit (trim d) v u) /\
  (forall v u, DurationFacts.number_with_unit (trim d) v u -> search (trim d) <> None) /\
  ((~ exists v u, DurationFacts.number_with_unit (trim d) v u) -> search (trim d) = None).
Proof.
  intros Hl. split; [|split; [|split; [|split]]].
  - apply step_nonterminal_results. unfold is_terminal. rewrite Hl. reflexivity.
  - unfold step. rewrite Hl. unfold update.
    destruct (search (trim d)) as [[v []]|]; destruct st as [rs [p|]]; reflexivity.
  - apply DurationFacts.search_sound.
  - apply DurationFacts.search_complete.
  - intros Hno. destruct (search (trim d)) as [[v u]|] eqn:E; [|reflexivity].
    exfalso. apply Hno. exists v, u. apply DurationFacts.search_sound. exact E.
Qed.

Lemma duration_line_witness :
  classify (js "Duration: 1.5 s") = LDuration (js "1.5 s") /\
  (results (step (js "Duration: 1.5 s") [] open_A) = results open_A /\
   currentTest (step (js "Duration: 1.5 s") [] open_A)
   = option_map (fun p =>
      match search (trim (js "1.5 s")) with
      | Some (v, Ms) => mkPartial (pt_name p) (Some v) (pt_errorMessage p) (pt_stackTrace p)
      | Some (v, Sec) => mkPartial (pt_name p) (Some (v * 1000)%Q) (pt_errorMessage p) (pt_stackTrace p)
      | None => p
      end) (currentTest open_A) /\
   (forall v u, search (trim (js "1.5 s")) = Some (v, u) ->
                DurationFacts.number_with_unit (trim (js "1.5 s")) v u) /\
   (forall v u, DurationFacts.number_with_unit (trim (js "1.5 s")) v u ->
                search (trim (js "1.5 s")) <> None) /\
   ((~ exists v u, DurationFacts.number_with_unit (trim (js "1.5 s")) v u) ->
    search (trim (js "1.5 s")) = None)).
Proof.
  assert (H : classify (js "Duration: 1.5 s") = LDuration (js "1.5 s")) by (vm_compute; reflexivity).
  split; [exact H|]. exact (duration_line _ _ [] open_A H).
Defined.

(** Seconds are scaled: [Duration: 1.5 s] stores 1500. *)
Example duration_seconds :
  option_map pt_duration (currentTest (step (js "Duration: 1.5 s") [] open_A)) = Some (Some (15000 # 10)%Q).
Proof. vm_compute. reflexivity. Qed.

End TestOutputFacts.

(** * Properties of the coverage side *)
Module CoverageFacts.

Import Coverage.

(** ** C1 *)

(** With the setting [lcov], the Cobertura file found first is still read
    as Cobertura; with the setting unset, a JSON file is too. *)
Lemma format_setting_not_first_counterexample :
  parseCoverageFile_choice (js "coverage.cobertura.xml") (getCoverageFormat (Some (js "lcov")))
  = Some Cobertura /\
  parseCoverageFile_choice (js "coverage.json") (getCoverageFormat None) = Some Cobertura.
Proof. vm_compute. split; reflexivity. Qed.

Definition by_extension (file : jstr) : option Parser :=
  if endsWith file (js ".xml") then Some Cobertura
  else if endsWith file (js ".json") then Some Json
  else if endsWith file (js ".lcov") then Some Lcov
  else None.

(** C1 (amended): the branches are tried in the order Cobertura, JSON,
    LCOV, and a branch is taken when the setting names it or the file has
    its extension.  An unset setting reads as [cobertura], so every file
    goes to the Cobertura parser; with [json], [.xml] files still go to
    Cobertura and every other file to JSON; with [lcov], [.xml] files go to
    Cobertura, [.json] files to JSON and every other file to LCOV; any other
    setting (such as [auto]) leaves the choice to the extension alone. *)
Theorem format_dispatch (file : jstr) :
  parseCoverageFile_choice file (getCoverageFormat None) = Some Cobertura /\
  parseCoverageFile_choice file (js "cobertura") = Some Cobertura /\
  parseCoverageFile_choice file (js "json")
  = (if endsWith file (js ".xml") then Some Cobertura else Some Json) /\
  parseCoverageFile_choice file (js "lcov")
  = (if endsWith file (js ".xml") then Some Cobertura
     else if endsWith file (js ".json") then Some Json else Some Lcov) /\
  (forall fmt, fmt <> js "cobertura" -> fmt <> js "json" -> fmt <> js "lcov" ->
   parseCoverageFile_choice file fmt = by_extension file).
Proof.
  unfold parseCoverageFile_choice, by_extension, getCoverageFormat. simpl default.
  split; [|split; [|split; [|split]]].
  - rewrite bool_decide_true by reflexivity. reflexivity.
  - rewrite bool_decide_true by reflexivity. reflexivity.
  - rewrite (bool_decide_false (js "json" = js "cobertura")) by discriminate.
    rewrite bool_decide_true by reflexivity. simpl.
    destruct (endsWith file (js ".xml")); reflexivity.
  - rewrite (bool_decide_false (js "lcov" = js "cobertura")) by discriminate.
    rewrite (bool_decide_false (js "lcov" = js "json")) by discriminate.
    rewrite bool_decide_true by reflexivity. simpl.
    destruct (endsWith file (js ".xml")), (endsWith file (js ".json")); reflexivity.
  - intros fmt H1 H2 H3.
    rewrite !bool_decide_false by assumption. reflexivity.
Qed.

Lemma format_dispatch_witness :
  (js "auto" <> js "cobertura" /\ js "auto" <> js "json" /\ js "auto" <> js "lcov") /\
  parseCoverageFile_choice (js "coverage.lcov") (js "auto") = by_extension (js "coverage.lcov").
Proof.
  assert (H1 : js "auto" <> js "cobertura") by discriminate.
  assert (H2 : js "auto" <> js "json") by discriminate.
  assert (H3 : js "auto" <> js "lcov") by discriminate.
  split; [split; [exact H1|split; [exact H2|exact H3]]|].
  exact (proj2 (proj2 (proj2 (proj2 (format_dispatch (js "coverage.lcov"))))) _ H1 H2 H3).
Defined.

(** ** LCOV parser invariants *)

(** The in-progress record is keyed by [currentFile] and still has the
    coverage 0 it was created with. *)
Definition lcov_inv (st : LcovState) : Prop :=
  forall c, currentCoverage st = Some c -> filePath c = currentFile st /\ coverage c = 0%Q.

Lemma lcov_step_inv (l : jstr) (st : LcovState) : lcov_inv st -> lcov_inv (lcov_step l st).
Proof.
  unfold lcov_inv, lcov_step. intros H c.
  destruct (startsWith l (js "SF:")).
  - simpl. intros Hc. injection Hc as <-. split; reflexivity.
  - destruct (currentCoverage st) as [c0|] eqn:E; [|rewrite E; apply H].
    destruct (startsWith l (js "DA:")).
    + destruct (match_DA l) as [[n h]|].
      * simpl. intros Hc. injection Hc as <-. simpl. apply H. reflexivity.
      * rewrite E. apply H.
    + destruct (bool_decide (l = js "end_of_record")); [discriminate|].
      rewrite E. apply H.
Qed.

Lemma lcov_run_inv (ls : list jstr) (st : LcovState) : lcov_inv st -> lcov_inv (lcov_run ls st).
Proof.
  unfold lcov_run. revert st. induction ls as [|l ls IH]; intros st H; simpl; [exact H|].
  apply IH. apply lcov_step_inv. exact H.
Qed.

Lemma lcov_init_inv (m : Store) : lcov_inv (lcov_init m).
Proof. intros c H. discriminate. Qed.

(** ** C4 *)

(** The spec's percentage of a closed record. *)
Definition percentage_spec (ls : list LineInfo) : Q :=
  if (length ls =? 0)%nat then 0%Q
  else (inject_Z (Z.of_nat (length (filter (fun l => covered l) ls)))
        / inject_Z (Z.of_nat (length ls)) * 100)%Q.

(** C4: at every [end_of_record] line reached with a record in progress,
    whatever the lines before it, the record is stored under its file path
    with percentage (covered / total) * 100, or 0 when it has no lines, and
    the in-progress slot is cleared. *)
Theorem lcov_end_of_record (ls : list jstr) (m : Store) (c : CoverageData) :
  currentCoverage (lcov_run ls (lcov_init m)) = Some c ->
  currentCoverage (lcov_step (js "end_of_record") (lcov_run ls (lcov_init m))) = None /\
  store (lcov_step (js "end_of_record") (lcov_run ls (lcov_init m))) !! filePath c
  = Some (mkCov (filePath c) (percentage_spec (lines c)) (lines c)).
Proof.
  intros Hc.
  destruct (lcov_run_inv ls _ (lcov_init_inv m) c Hc) as [Hf Hz].
  set (st := lcov_run ls (lcov_init m)) in *. clearbody st.
  unfold lcov_step. rewrite Hc. simpl. split; [reflexivity|].
  rewrite Hf, lookup_insert_eq. f_equal.
  unfold close_record, percentage_spec. rewrite <- Hf.
  destruct c as [fp cov ls']. simpl in *. subst cov.
  destruct ls' as [|x ls']; simpl; reflexivity.
Qed.

Definition three_lines : list jstr := [js "SF:src/math.cs"; js "DA:1,5"; js "DA:2,0"; js "DA:3,2"].

Lemma lcov_end_of_record_witness :
  currentCoverage (lcov_run three_lines (lcov_init ∅))
  = Some (mkCov (js "src/math.cs") 0 [mkLine 1 true; mkLine 2 false; mkLine 3 true]) /\
  (currentCoverage (lcov_step (js "end_of_record") (lcov_run three_lines (lcov_init ∅))) = None /\
   store (lcov_step (js "end_of_record") (lcov_run three_lines (lcov_init ∅)))
     !! filePath (mkCov (js "src/math.cs") 0 [mkLine 1 true; mkLine 2 false; mkLine 3 true])
   = Some (mkCov (js "src/math.cs") (percentage_spec [mkLine 1 true; mkLine 2 false; mkLine 3 true])
                 [mkLine 1 true; mkLine 2 false; mkLine 3 true])).
Proof.
  assert (H : currentCoverage (lcov_run three_lines (lcov_init ∅))
              = Some (mkCov (js "src/math.cs") 0 [mkLine 1 true; mkLine 2 false; mkLine 3 true]))
    by (vm_compute; reflexivity).
  split; [exact H|]. exact (lcov_end_of_record _ _ _ H).
Defined.

(** The spec's example: two covered lines of three give 200/3. *)
Example two_of_three_percentage :
  (percentage_spec [mkLine 1 true; mkLine 2 false; mkLine 3 true] == 200 # 3)%Q.
Proof. reflexivity. Qed.

(** A record closed with no line at all gets 0. *)
Example empty_record_percentage :
  parseLcovReport (join_nl [js "SF:a.cs"; js "end_of_record"]) ∅ !! js "a.cs"
  = Some (mkCov (js "a.cs") 0 []).
Proof. vm_compute. reflexivity. Qed.

(** ** The parsers only write: a parse over a store is the parse over the
    empty store laid over it *)

Lemma fold_union {A : Type} (g : A -> Store -> Store) (l : list A) (m1 m2 : Store) :
  (forall x m1 m2, g x (m1 ∪ m2) = g x m1 ∪ m2) ->
  fold_left (fun m x => g x m) l (m1 ∪ m2) = fold_left (fun m x => g x m) l m1 ∪ m2.
Proof.
  intros Hg. revert m1. induction l as [|x l IH]; intros m1; simpl; [reflexivity|].
  rewrite Hg. apply IH.
Qed.

Lemma cobertura_union (p : list XmlPackage) (m1 m2 : Store) :
  parseCoberturaReport p (m1 ∪ m2) = parseCoberturaReport p m1 ∪ m2.
Proof.
  unfold parseCoberturaReport.
  apply (fold_union (fun pkg m => fold_left (fun m cls => <[x_filename cls := cobertura_class cls]> m)
                                            (x_classes pkg) m)).
  intros pkg n1 n2.
  apply (fold_union (fun cls m => <[x_filename cls := cobertura_class cls]> m)).
  intros cls k1 k2. apply insert_union_l.
Qed.

Lemma json_union (j : list JsonModule) (m1 m2 : Store) :
  parseJsonReport j (m1 ∪ m2) = parseJsonReport j m1 ∪ m2.
Proof.
  unfold parseJsonReport.
  apply (fold_union (fun md m => fold_left (fun m entry => json_insert entry m) (j_documents md) m)).
  intros md n1 n2.
  apply (fold_union json_insert).
  intros [path doc] k1 k2. apply insert_union_l.
Qed.

Definition with_store (st : LcovState) (m : Store) : LcovState :=
  mkLcov (currentFile st) (currentCoverage st) m.

Lemma lcov_step_union (l : jstr) (st : LcovState) (m2 : Store) :
  lcov_step l (with_store st (store st ∪ m2))
  = with_store (lcov_step l st) (store (lcov_step l st) ∪ m2).
Proof.
  destruct st as [f c m1]. unfold lcov_step, with_store.
  cbn [currentFile currentCoverage store].
  destruct (startsWith l (js "SF:")); [reflexivity|].
  destruct c as [c|]; [|reflexivity].
  destruct (startsWith l (js "DA:")).
  - destruct (match_DA l) as [[n h]|]; reflexivity.
  - destruct (bool_decide (l = js "end_of_record")); [|reflexivity].
    cbn [currentFile currentCoverage store]. rewrite insert_union_l. reflexivity.
Qed.

Lemma lcov_run_union (ls : list jstr) (st : LcovState) (m2 : Store) :
  lcov_run ls (with_store st (store st ∪ m2))
  = with_store (lcov_run ls st) (store (lcov_run ls st) ∪ m2).
Proof.
  unfold lcov_run. revert st. induction ls as [|l ls IH]; intros st; simpl.
  - destruct st; reflexivity.
  - rewrite lcov_step_union. apply IH.
Qed.

Lemma lcov_union (content : jstr) (m : Store) :
  parseLcovReport content m = parseLcovReport content ∅ ∪ m.
Proof.
  unfold parseLcovReport.
  replace (lcov_init m) with (with_store (lcov_init ∅) (store (lcov_init ∅) ∪ m))
    by (unfold with_store; simpl; rewrite (left_id_L ∅ (∪)); reflexivity).
  rewrite lcov_run_union. reflexivity.
Qed.

Lemma apply_report_union (r : Report) (m : Store) :
  apply_report r m = apply_report r ∅ ∪ m.
Proof.
  destruct r as [p|j|c]; simpl.
  - rewrite <- (left_id_L ∅ (∪) m) at 1. apply cobertura_union.
  - rewrite <- (left_id_L ∅ (∪) m) at 1. apply json_union.
  - apply lcov_union.
Qed.

(** ** Every stored record sits under its own file path *)

Definition keyed (m : Store) : Prop := forall k d, m !! k = Some d -> filePath d = k.

Lemma keyed_empty : keyed ∅.
Proof. intros k d H. rewrite lookup_empty in H. discriminate. Qed.

Lemma keyed_insert (m : Store) (k : jstr) (d : CoverageData) :
  keyed m -> filePath d = k -> keyed (<[k := d]> m).
Proof.
  intros Hm Hd k' d' H. destruct (decide (k = k')) as [<-|Hne].
  - rewrite lookup_insert_eq in H. injection H as <-. exact Hd.
  - rewrite lookup_insert_ne in H by exact Hne. apply Hm. exact H.
Qed.

Lemma keyed_union (m1 m2 : Store) : keyed m1 -> keyed m2 -> keyed (m1 ∪ m2).
Proof.
  intros H1 H2 k d H. apply lookup_union_Some_raw in H.
  destruct H as [H|[_ H]]; [apply H1|apply H2]; exact H.
Qed.

Lemma keyed_fold {A : Type} (g : A -> Store -> Store) (l : list A) (m : Store) :
  (forall x m, keyed m -> keyed (g x m)) -> keyed m -> keyed (fold_left (fun m x => g x m) l m).
Proof.
  intros Hg. revert m. induction l as [|x l IH]; intros m Hm; simpl; [exact Hm|].
  apply IH. apply Hg. exact Hm.
Qed.

Lemma lcov_keyed (ls : list jstr) (st : LcovState) :
  lcov_inv st -> keyed (store st) -> keyed (store (lcov_run ls st)).
Proof.
  unfold lcov_run. revert st. induction ls as [|l ls IH]; intros st Hi Hk; simpl; [exact Hk|].
  apply IH; [apply lcov_step_inv; exact Hi|].
  unfold lcov_step. destruct (startsWith l (js "SF:")); [exact Hk|].
  destruct (currentCoverage st) as [c|] eqn:E; [|exact Hk].
  destruct (startsWith l (js "DA:")).
  - destruct (match_DA l) as [[n h]|]; exact Hk.
  - destruct (bool_decide (l = js "end_of_record")); [|exact Hk].
    simpl. apply keyed_insert; [exact Hk|].
    destruct (Hi c E) as [Hf _]. unfold close_record.
    destruct (bool_decide _); exact Hf.
Qed.

Lemma apply_report_keyed (r : Report) (m : Store) : keyed m -> keyed (apply_report r m).
Proof.
  intros Hm. destruct r as [p|j|c]; simpl.
  - apply keyed_fold; [|exact Hm]. intros pkg n Hn.
    apply keyed_fold; [|exact Hn]. intros cls n' Hn'.
    apply keyed_insert; [exact Hn'|reflexivity].
  - apply keyed_fold; [|exact Hm]. intros md n Hn.
    apply (keyed_fold json_insert); [|exact Hn].
    intros [path doc] n' Hn'. apply keyed_insert; [exact Hn'|reflexivity].
  - apply lcov_keyed; [apply lcov_init_inv|exact Hm].
Qed.

Lemma apply_reports_keyed (rs : list Report) (m : Store) : keyed m -> keyed (apply_reports rs m).
Proof. apply keyed_fold. intros r n. apply apply_report_keyed. Qed.

(** ** C5 *)

(** C5: after any sequence of report parses from the empty store, two
    stored records with the same file path are the same entry; and when a
    report describes [F] (its parse alone stores [d] for [F]), parsing it
    after any other report leaves [d] as the one record for [F]: the last
    write wins, with no merge of line sets. *)
Theorem coverage_store_upsert (rs : list Report) (r1 r2 : Report) (F : jstr) (d : CoverageData) :
  (forall k1 k2 d1 d2,
     apply_reports rs ∅ !! k1 = Some d1 -> apply_reports rs ∅ !! k2 = Some d2 ->
     filePath d1 = filePath d2 -> k1 = k2 /\ d1 = d2) /\
  (apply_report r2 ∅ !! F = Some d ->
   apply_report r2 (apply_report r1 (apply_reports rs ∅)) !! F = Some d /\
   filePath d = F /\
   (forall k d', apply_report r2 (apply_report r1 (apply_reports rs ∅)) !! k = Some d' ->
                 filePath d' = F -> k = F /\ d' = d)).
Proof.
  pose proof (apply_reports_keyed rs ∅ keyed_empty) as Hk.
  pose proof (apply_report_keyed r2 _ (apply_report_keyed r1 _ Hk)) as Hk2.
  split.
  - intros k1 k2 d1 d2 H1 H2 Hf.
    rewrite (Hk _ _ H1), (Hk _ _ H2) in Hf. subst k2. split; [reflexivity|congruence].
  - intros HF.
    assert (Hlook : apply_report r2 (apply_report r1 (apply_reports rs ∅)) !! F = Some d).
    { rewrite apply_report_union. apply lookup_union_Some_l. exact HF. }
    split; [exact Hlook|].
    split; [exact (Hk2 _ _ Hlook)|].
    intros k d' H Hf. rewrite (Hk2 _ _ H) in Hf. subst k. split; [reflexivity|congruence].
Qed.

Definition report_F1 : Report :=
  RLcov (join_nl [js "SF:F"; js "DA:1,1"; js "DA:2,1"; js "end_of_record"]).
Definition report_F2 : Report :=
  RCobertura [mkXmlPackage [mkXmlClass (js "F") (1 # 2) [mkXmlLine 7 0]]].

Lemma coverage_store_upsert_witness :
  apply_report report_F2 ∅ !! js "F"
  = Some (mkCov (js "F") ((1 # 2) * 100)%Q [mkLine 7 false]) /\
  (apply_report report_F2 (apply_report report_F1 (apply_reports [] ∅)) !! js "F"
   = Some (mkCov (js "F") ((1 # 2) * 100)%Q [mkLine 7 false]) /\
   filePath (mkCov (js "F") ((1 # 2) * 100)%Q [mkLine 7 false]) = js "F" /\
   (forall k d', apply_report report_F2 (apply_report report_F1 (apply_reports [] ∅)) !! k = Some d' ->
                 filePath d' = js "F" -> k = js "F" /\ d' = mkCov (js "F") ((1 # 2) * 100)%Q [mkLine 7 false])).
Proof.
  assert (H : apply_report report_F2 ∅ !! js "F"
              = Some (mkCov (js "F") ((1 # 2) * 100)%Q [mkLine 7 false])) by (vm_compute; reflexivity).
  split; [exact H|]. exact (proj2 (coverage_store_upsert [] report_F1 report_F2 _ _) H).
Defined.

(** ** C6 *)

Fixpoint sum_Q (l : list Q) : Q :=
  match l with [] => 0%Q | x :: r => (x + sum_Q r)%Q end.

(** The unweighted arithmetic mean, 0 for no value. *)
Definition mean (l : list Q) : Q :=
  match l with [] => 0%Q | _ :: _ => (sum_Q l / inject_Z (Z.of_nat (length l)))%Q end.

(** C6: [getOverallCoverage] is the unweighted mean of the stored
    percentages (0 for an empty store), and it does not depend on the line
    lists of the records. *)
Theorem overall_coverage_mean (m : Store) :
  (getOverallCoverage m == mean (map (fun kc => coverage kc.2) (map_to_list m)))%Q /\
  (forall g : CoverageData -> list LineInfo,
     getOverallCoverage ((fun c => mkCov (filePath c) (coverage c) (g c)) <$> m)
     = getOverallCoverage m).
Proof.
  split.
  - unfold getOverallCoverage. rewrite map_fold_foldr.
    destruct (decide (size m = 0%nat)) as [H0|H0].
    + rewrite bool_decide_true by exact H0.
      apply map_size_empty_inv in H0. subst m. rewrite map_to_list_empty. reflexivity.
    + rewrite bool_decide_false by exact H0.
      rewrite <- length_map_to_list in H0 |- *.
      assert (Hsum : forall l : list (jstr * CoverageData),
        (foldr (uncurry (fun _ c total => total + coverage c)) 0 l
         == sum_Q (map (fun kc => coverage kc.2) l))%Q).
      { induction l as [|[k c] l IH]; simpl; [reflexivity|].
        rewrite IH. apply Qplus_comm. }
      destruct (map_to_list m) as [|kc l] eqn:E; [simpl in H0; lia|].
      unfold mean. cbn [map]. rewrite Hsum.
      simpl length. rewrite length_map. reflexivity.
  - intros g. unfold getOverallCoverage. rewrite map_size_fmap, map_fold_fmap. reflexivity.
Qed.

(** The spec's example: a 2-line file at 100% and a 1-line file at 50%. *)
Example overall_coverage_example :
  (getOverallCoverage (<[js "a.cs" := mkCov (js "a.cs") 100 [mkLine 1 true; mkLine 2 true]]>
                       (<[js "b.cs" := mkCov (js "b.cs") 50 [mkLine 1 false]]> ∅)) == 75)%Q.
Proof. vm_compute. reflexivity. Qed.

Example overall_coverage_empty : getOverallCoverage ∅ = 0%Q.
Proof. reflexivity. Qed.

(** ** C9 *)

(** A record for [a] is stored although a later [SF:a] block is never
    closed before [SF:b]: the first, closed [SF:a] block stored it. *)
Lemma unclosed_block_path_counterexample :
  parseLcovReport (join_nl [js "SF:a"; js "end_of_record"; js "SF:a"; js "DA:1,1";
                            js "SF:b"; js "end_of_record"]) ∅ !! js "a"
  = Some (mkCov (js "a") 0 []).
Proof. vm_compute. reflexivity. Qed.

Lemma startsWith_SF (a : jstr) : startsWith (js "SF:" ++ a) (js "SF:") = true.
Proof. reflexivity. Qed.

Lemma lcov_step_store (l : jstr) (st : LcovState) :
  l <> js "end_of_record" -> store (lcov_step l st) = store st.
Proof.
  intros Hl. unfold lcov_step.
  destruct (startsWith l (js "SF:")); [reflexivity|].
  destruct (currentCoverage st) as [c|]; [|reflexivity].
  destruct (startsWith l (js "DA:")).
  - destruct (match_DA l) as [[n h]|]; reflexivity.
  - rewrite bool_decide_false by exact Hl. reflexivity.
Qed.

Lemma lcov_run_store (ls : list jstr) (st : LcovState) :
  Forall (fun l => l <> js "end_of_record") ls -> store (lcov_run ls st) = store st.
Proof.
  unfold lcov_run. revert st. induction ls as [|l ls IH]; intros st H; simpl; [reflexivity|].
  inversion H; subst. rewrite IH by assumption. apply lcov_step_store. assumption.
Qed.

Lemma lcov_step_SF (a : jstr) (st : LcovState) :
  lcov_step (js "SF:" ++ a) st = mkLcov a (Some (mkCov a 0 [])) (store st).
Proof.
  unfold lcov_step. rewrite startsWith_SF. reflexivity.
Qed.

(** C9 (amended): an [SF:] line replaces the in-progress record by a fresh
    one and stores nothing, so an [SF:a] block followed by another [SF:]
    line before any [end_of_record] leaves no trace: the report parses to
    the same store as the report without that block.  A record for [a] can
    still come from another, closed block of the report. *)
Theorem lcov_unclosed_block_lost (content content' : jstr) (pre mid post : list jstr)
    (a b : jstr) (m : Store) :
  split_nl content = pre ++ [js "SF:" ++ a] ++ mid ++ [js "SF:" ++ b] ++ post ->
  split_nl content' = pre ++ [js "SF:" ++ b] ++ post ->
  Forall (fun l => l <> js "end_of_record") mid ->
  parseLcovReport content m = parseLcovReport content' m.
Proof.
  intros H1 H2 Hmid. unfold parseLcovReport. rewrite H1, H2.
  unfold lcov_run. rewrite !fold_left_app. f_equal.
  set (st0 := fold_left (fun st l => lcov_step l st) pre (lcov_init m)).
  cbn [fold_left]. rewrite !lcov_step_SF.
  rewrite (lcov_run_store mid _ Hmid : store (fold_left _ mid _) = _). reflexivity.
Qed.

Lemma lcov_unclosed_block_lost_witness :
  split_nl (join_nl [js "SF:a"; js "DA:1,1"; js "DA:2,0"; js "SF:b"; js "DA:1,1"; js "end_of_record"])
  = [] ++ [js "SF:" ++ js "a"] ++ [js "DA:1,1"; js "DA:2,0"] ++ [js "SF:" ++ js "b"]
       ++ [js "DA:1,1"; js "end_of_record"] /\
  split_nl (join_nl [js "SF:b"; js "DA:1,1"; js "end_of_record"])
  = [] ++ [js "SF:" ++ js "b"] ++ [js "DA:1,1"; js "end_of_record"] /\
  Forall (fun l => l <> js "end_of_record") [js "DA:1,1"; js "DA:2,0"] /\
  parseLcovReport (join_nl [js "SF:a"; js "DA:1,1"; js "DA:2,0"; js "SF:b"; js "DA:1,1"; js "end_of_record"]) ∅
  = parseLcovReport (join_nl [js "SF:b"; js "DA:1,1"; js "end_of_record"]) ∅.
Proof.
  assert (H1 : split_nl (join_nl [js "SF:a"; js "DA:1,1"; js "DA:2,0"; js "SF:b"; js "DA:1,1"; js "end_of_record"])
    = [] ++ [js "SF:" ++ js "a"] ++ [js "DA:1,1"; js "DA:2,0"] ++ [js "SF:" ++ js "b"]
         ++ [js "DA:1,1"; js "end_of_record"]) by (vm_compute; reflexivity).
  assert (H2 : split_nl (join_nl [js "SF:b"; js "DA:1,1"; js "end_of_record"])
    = [] ++ [js "SF:" ++ js "b"] ++ [js "DA:1,1"; js "end_of_record"]) by (vm_compute; reflexivity).
  assert (H3 : Forall (fun l => l <> js "end_of_record") [js "DA:1,1"; js "DA:2,0"]).
  { repeat constructor; discriminate. }
  split; [exact H1|]. split; [exact H2|]. split; [exact H3|].
  exact (lcov_unclosed_block_lost _ _ _ _ _ _ _ ∅ H1 H2 H3).
Defined.

End CoverageFacts.

(** * Test discovery and the per-project result map *)
Module TestStoreFacts.

Import TestOutput TestStore.

Lemma drop_spaces_head (s : jstr) (c : Z) (r : jstr) :
  drop_spaces s = c :: r -> is_space c = false.
Proof.
  induction s as [|x s IH]; cbn [drop_spaces]; [discriminate|].
  destruct (is_space x) eqn:Ex; [exact IH|]. intros H. injection H as -> _. exact Ex.
Qed.

Lemma drop_spaces_nonspace (c : Z) (r : jstr) :
  is_space c = false -> drop_spaces (c :: r) = c :: r.
Proof. intros H. cbn [drop_spaces]. rewrite H. reflexivity. Qed.

Lemma drop_spaces_idem (s : jstr) : drop_spaces (drop_spaces s) = drop_spaces s.
Proof.
  destruct (drop_spaces s) as [|c r] eqn:E; [reflexivity|].
  apply drop_spaces_nonspace. exact (drop_spaces_head s c r E).
Qed.

Lemma trim_idem (s : jstr) : trim (trim s) = trim s.
Proof.
  unfold trim. set (a := drop_spaces s). set (b := drop_spaces (rev a)).
  destruct (DurationFacts.drop_spaces_spec (rev a)) as (sp & Hsp & _). fold b in Hsp.
  assert (Hb : drop_spaces (rev b) = rev b).
  { destruct b as [|z b'] using rev_ind; [reflexivity|].
    rewrite rev_app_distr. simpl. apply drop_spaces_nonspace.
    assert (Ha : a = z :: rev (sp ++ b')).
    { rewrite <- (rev_involutive a), Hsp, app_assoc, rev_app_distr. reflexivity. }
    apply (drop_spaces_head s z (rev (sp ++ b'))). exact Ha. }
  rewrite Hb, rev_involutive. unfold b at 1. rewrite drop_spaces_idem. reflexivity.
Qed.

Lemma collect_names_trimmed (ls : list jstr) (n : jstr) :
  In n (collect_names ls) -> n <> [] /\ trim n = n.
Proof.
  induction ls as [|l ls IH]; simpl; [intros []|].
  destruct (match_test_line l) as [g|]; [|exact IH].
  destruct (bool_decide (trim g = [])) eqn:E; [exact IH|].
  intros [<-|H]; [|exact (IH H)].
  apply bool_decide_eq_false in E. split; [exact E|apply trim_idem].
Qed.

(** [discoverTests] returns only non-empty names with no leading or
    trailing whitespace. *)
Theorem discovered_names_trimmed (listed : option jstr) (n : jstr) :
  In n (discoverTests listed) -> n <> [] /\ trim n = n.
Proof.
  destruct listed as [out|]; simpl; [apply collect_names_trimmed|intros []].
Qed.

Lemma discovered_names_trimmed_witness :
  In (js "Calc.Add") (discoverTests (Some (js "    Calc.Add "))) /\
  js "Calc.Add" <> [] /\ trim (js "Calc.Add") = js "Calc.Add".
Proof.
  assert (H : In (js "Calc.Add") (discoverTests (Some (js "    Calc.Add "))))
    by (vm_compute; left; reflexivity).
  split; [exact H|]. exact (discovered_names_trimmed _ _ H).
Defined.

Lemma match_test_line_cr (l : jstr) :
  (drop_spaces l = [] \/ exists l', l = l' ++ [13]) -> match_test_line l = None.
Proof.
  unfold match_test_line. intros [H|[l' ->]]; [rewrite H; reflexivity|].
  destruct (DurationFacts.drop_spaces_spec (l' ++ [13])) as (sp & Hsp & _).
  destruct (drop_spaces (l' ++ [13])) as [|c r] eqn:E; [reflexivity|].
  assert (Hin : In 13 (c :: r)).
  { destruct (exists_last (l := c :: r) ltac:(discriminate)) as (y & x & Hyx).
    rewrite Hyx in Hsp |- *. rewrite app_assoc in Hsp.
    apply app_inj_tail in Hsp as [_ ->].
    apply in_or_app. right. left. reflexivity. }
  unfold no_line_terminator. destruct (forallb _ (c :: r)) eqn:F; [|reflexivity].
  rewrite forallb_forall in F. specialize (F 13 Hin). discriminate F.
Qed.

(** With CRLF line ends, as [dotnet test --list-tests] prints them on
    Windows, nothing is discovered: a line that still ends in a carriage
    return after the split on LF never matches, because [.] does not match
    it and [$] only matches at the very end. *)
Theorem crlf_output_discovers_nothing (out : jstr) :
  Forall (fun l => drop_spaces l = [] \/ exists l', l = l' ++ [13]) (split_nl out) ->
  discoverTests (Some out) = [].
Proof.
  simpl. induction (split_nl out) as [|l ls IH]; intros H; [reflexivity|].
  inversion H as [|? ? Hl Hls]; subst. simpl.
  rewrite (match_test_line_cr l Hl). apply IH. exact Hls.
Qed.

Lemma crlf_output_discovers_nothing_witness :
  discoverTests (Some (js "The following Tests are available:" ++ [13; 10]
                       ++ js "    Calc.Add" ++ [13; 10] ++ js "    Calc.Sub" ++ [13; 10])) = [].
Proof.
  apply crlf_output_discovers_nothing.
  match goal with
  | |- Forall _ (split_nl ?o) =>
      let v := eval vm_compute in (split_nl o) in change (split_nl o) with v
  end.
  repeat apply List.Forall_cons; try apply List.Forall_nil; cbv beta;
    first [ left; reflexivity
          | right; match goal with
                   | |- exists l', ?l = _ => exists (removelast l); vm_compute; reflexivity
                   end ].
Defined.

Lemma count_outcome_partition (rs : list TestResult) :
  (count_outcome Passed rs + count_outcome Failed rs + count_outcome Skipped rs
   = length rs)%nat.
Proof.
  unfold count_outcome. induction rs as [|r rs IH]; simpl; [reflexivity|].
  destruct (outcome r); simpl; lia.
Qed.

(** The three counts of [getTestSummary] always add up to its total: every
    stored result is counted exactly once. *)
Theorem summary_counts_add_up (m : ResultMap) :
  (passed (getTestSummary m) + failed (getTestSummary m) + skipped (getTestSummary m)
   = total (getTestSummary m))%nat.
Proof. apply count_outcome_partition. Qed.

Lemma map_get_set (k q : jstr) (v : list TestResult) (m : ResultMap) :
  map_get q (map_set k v m) = if bool_decide (k = q) then Some v else map_get q m.
Proof.
  induction m as [|[k' v'] m IH]; simpl.
  - destruct (bool_decide (k = q)); reflexivity.
  - destruct (bool_decide (k' = k)) eqn:E1.
    + apply bool_decide_eq_true in E1. subst k'. simpl.
      destruct (bool_decide (k = q)); reflexivity.
    + simpl. destruct (bool_decide (k' = q)) eqn:E2; [|exact IH].
      apply bool_decide_eq_true in E2. subst q.
      rewrite bool_decide_false by (apply bool_decide_eq_false in E1; congruence).
      reflexivity.
Qed.

Lemma map_get_run (k q : jstr) (stdout : option jstr) (m : ResultMap) :
  map_get q (snd (runTestsForProject k stdout m))
  = if bool_decide (k = q) then
      match stdout with Some out => Some (parseTestResults out) | None => map_get q m end
    else map_get q m.
Proof.
  destruct stdout as [out|]; simpl; [apply map_get_set|].
  destruct (bool_decide (k = q)); reflexivity.
Qed.

(** A test run stores its parsed results under the project path, replacing
    what that project had; a run whose command fails returns [] and leaves
    the project's previous results in place.  Other projects are untouched. *)
Theorem run_then_get (p : jstr) (stdout : option jstr) (m : ResultMap) :
  p <> [] ->
  getTestResults (Some p) (snd (runTestsForProject p stdout m))
  = match stdout with
    | Some out => parseTestResults out
    | None => getTestResults (Some p) m
    end /\
  fst (runTestsForProject p stdout m)
  = match stdout with Some out => parseTestResults out | None => [] end /\
  (forall q, q <> [] -> q <> p ->
   getTestResults (Some q) (snd (runTestsForProject p stdout m)) = getTestResults (Some q) m).
Proof.
  intros Hp. destruct p as [|c p]; [contradiction|].
  split; [|split].
  - simpl getTestResults. rewrite map_get_run, bool_decide_true by reflexivity.
    destruct stdout; reflexivity.
  - destruct stdout; reflexivity.
  - intros [|d q] Hq Hne; [contradiction|]. simpl getTestResults.
    rewrite map_get_run, bool_decide_false by congruence. reflexivity.
Qed.

Lemma run_then_get_witness :
  js "Tests/Calc.Tests.csproj" <> [] /\
  getTestResults (Some (js "Tests/Calc.Tests.csproj"))
    (snd (runTestsForProject (js "Tests/Calc.Tests.csproj")
            (Some (join_nl [js "Test Name: Calc.Add"; js "Passed!"])) []))
  = [mkResult (js "Calc.Add") Passed None None None].
Proof.
  split; [discriminate|].
  destruct (run_then_get (js "Tests/Calc.Tests.csproj")
              (Some (join_nl [js "Test Name: Calc.Add"; js "Passed!"])) [])
    as [H _]; [discriminate|].
  rewrite H. vm_compute. reflexivity.
Defined.

Lemma map_set_concat (k : jstr) (v : list TestResult) (m : ResultMap) :
  exists pre post,
    concat (map snd m) = pre ++ default [] (map_get k m) ++ post /\
    concat (map snd (map_set k v m)) = pre ++ v ++ post.
Proof.
  induction m as [|[k' v'] m IH]; simpl.
  - exists [], []. simpl. rewrite !app_nil_r. split; reflexivity.
  - destruct (bool_decide (k' = k)); simpl.
    + exists [], (concat (map snd m)). split; reflexivity.
    + destruct IH as (pre & post & H1 & H2). exists (v' ++ pre), post.
      rewrite H1, H2, <- !app_assoc. split; reflexivity.
Qed.

Lemma count_outcome_app (o : Outcome) (a b : list TestResult) :
  count_outcome o (a ++ b) = (count_outcome o a + count_outcome o b)%nat.
Proof. unfold count_outcome. rewrite List.filter_app, length_app. reflexivity. Qed.

(** Re-running a project's tests swaps its old results for the new ones in
    the summary: each count, and the total, loses the project's old
    results and gains its new ones; results of other projects still count. *)
Theorem summary_after_run (p out : jstr) (m : ResultMap) :
  p <> [] ->
  let old := getTestResults (Some p) m in
  let new := parseTestResults out in
  let s := getTestSummary m in
  let s' := getTestSummary (snd (runTestsForProject p (Some out) m)) in
  (passed s' + count_outcome Passed old = passed s + count_outcome Passed new)%nat /\
  (failed s' + count_outcome Failed old = failed s + count_outcome Failed new)%nat /\
  (skipped s' + count_outcome Skipped old = skipped s + count_outcome Skipped new)%nat /\
  (total s' + length old = total s + length new)%nat.
Proof.
  intros Hp. destruct p as [|c p]; [contradiction|]. cbv zeta.
  unfold getTestSummary. simpl snd. cbn [passed failed skipped total getTestResults].
  destruct (map_set_concat (c :: p) (parseTestResults out) m) as (pre & post & H1 & H2).
  rewrite H1, H2, !count_outcome_app, !length_app. lia.
Qed.

Lemma summary_after_run_witness :
  js "T.csproj" <> [] /\
  total (getTestSummary (snd (runTestsForProject (js "T.csproj")
           (Some (join_nl [js "Test Name: A"; js "Failed!"]))
           [(js "T.csproj", [mkResult (js "A") Passed None None None;
                             mkResult (js "B") Passed None None None])]))) = 1%nat.
Proof.
  split; [discriminate|].
  destruct (summary_after_run (js "T.csproj") (join_nl [js "Test Name: A"; js "Failed!"])
              [(js "T.csproj", [mkResult (js "A") Passed None None None;
                                mkResult (js "B") Passed None None None])])
    as (_ & _ & _ & H); [discriminate|].
  vm_compute in H. vm_compute. lia.
Defined.

Lemma map_get_run_all (ps : list Cli.DotNetProject) (cli : jstr -> option jstr)
    (q : jstr) (m : ResultMap) :
  map_get q (fold_left (fun m p => snd (runTestsForProject (Cli.path p) (cli (Cli.path p)) m)) ps m)
  = if existsb (fun p => bool_decide (Cli.path p = q)) ps then
      match cli q with Some out => Some (parseTestResults out) | None => map_get q m end
    else map_get q m.
Proof.
  revert m. induction ps as [|p ps IH]; intros m; simpl; [reflexivity|].
  rewrite IH, map_get_run.
  destruct (bool_decide (Cli.path p = q)) eqn:E; simpl.
  - apply bool_decide_eq_true in E. subst q.
    destruct (existsb _ ps); destruct (cli (Cli.path p)); reflexivity.
  - destruct (existsb _ ps); reflexivity.
Qed.

(** After [runAllTests], every test project holds the results of its own
    run; a test project whose run failed keeps the results of its previous
    run, which the summary still counts. *)
Theorem run_all_tests_results (ps : list Cli.DotNetProject) (cli : jstr -> option jstr)
    (m : ResultMap) (p : Cli.DotNetProject) :
  In p ps -> Cli.isTestProject p = true -> Cli.path p <> [] ->
  getTestResults (Some (Cli.path p)) (runAllTests ps cli m)
  = match cli (Cli.path p) with
    | Some out => parseTestResults out
    | None => getTestResults (Some (Cli.path p)) m
    end.
Proof.
  intros Hin Ht Hp. unfold runAllTests.
  destruct (Cli.path p) as [|c r] eqn:Ep; [contradiction|]. simpl getTestResults.
  rewrite map_get_run_all.
  assert (Hex : existsb (fun p' => bool_decide (Cli.path p' = c :: r))
                        (List.filter Cli.isTestProject ps) = true).
  { apply existsb_exists. exists p. split.
    - apply List.filter_In. split; assumption.
    - rewrite Ep. apply bool_decide_eq_true. reflexivity. }
  rewrite Hex. destruct (cli (c :: r)); reflexivity.
Qed.

Definition calc_tests : Cli.DotNetProject :=
  Cli.mkProject (js "Calc.Tests.csproj") (js "Calc.Tests") Cli.Test (js "net8.0") true.

Lemma run_all_tests_results_witness :
  In calc_tests [calc_tests] /\ Cli.isTestProject calc_tests = true /\
  Cli.path calc_tests <> [] /\
  getTestResults (Some (Cli.path calc_tests))
    (runAllTests [calc_tests] (fun _ => None)
       [(Cli.path calc_tests, [mkResult (js "A") Passed None None None])])
  = [mkResult (js "A") Passed None None None].
Proof.
  split; [left; reflexivity|]. split; [reflexivity|]. split; [discriminate|].
  exact (run_all_tests_results [calc_tests] (fun _ => None)
           [(Cli.path calc_tests, [mkResult (js "A") Passed None None None])] calc_tests
           (or_introl eq_refl) eq_refl ltac:(discriminate)).
Defined.

End TestStoreFacts.

(** * Project info, build failure texts and launch-profile arguments *)
Module CliFacts.

Import Cli Profiles.

Lemma take_until_fst_notin (c : Z) (s : jstr) : ~ In c (fst (take_until c s)).
Proof.
  induction s as [|x r IH]; simpl; [intros []|].
  destruct (x =? c) eqn:E; [intros []|].
  destruct (take_until c r) as [a b]. simpl in *. intros [->|H]; [|exact (IH H)].
  rewrite Z.eqb_refl in E. discriminate.
Qed.

Lemma take_until_fst_sub (c x : Z) (s : jstr) : In x (fst (take_until c s)) -> In x s.
Proof.
  induction s as [|y r IH]; simpl; [intros []|].
  destruct (y =? c); [intros []|].
  destruct (take_until c r) as [a b]. simpl in *. intros [->|H]; [left; reflexivity|].
  right. exact (IH H).
Qed.

Lemma tag_match_at_notin (tag s g : jstr) : tag_match_at tag s = Some g -> ~ In 60 g.
Proof.
  unfold tag_match_at. destruct (prefix_ci (60 :: tag) s); [|discriminate].
  destruct (snd _) as [|z r2]; [discriminate|].
  pose proof (take_until_fst_notin 60 r2) as H.
  destruct (take_until 60 r2) as [g' r3]. simpl in H.
  destruct g' as [|y g']; [discriminate|].
  destruct (prefix_ci _ r3); [|discriminate]. intros E. injection E as <-. exact H.
Qed.

Lemma tag_search_notin (tag s g : jstr) : tag_search tag s = Some g -> ~ In 60 g.
Proof.
  induction s as [|x r IH]; cbn [tag_search];
  destruct (tag_match_at tag _) eqn:E;
  try (intros H; injection H as <-; exact (tag_match_at_notin _ _ _ E)).
  - discriminate.
  - exact IH.
Qed.

Lemma forallb_notin (x : Z) (l : jstr) : forallb (fun c => negb (c =? x)) l = true -> ~ In x l.
Proof.
  intros H Hin. rewrite forallb_forall in H. specialize (H x Hin).
  rewrite Z.eqb_refl in H. discriminate.
Qed.

(** The target framework [getProjectInfo] reports never contains [;] or
    [<]: of a [TargetFrameworks] list only the part before the first [;]
    is kept, and the captured text stops before the next [<]. *)
Theorem target_framework_single (content : jstr) :
  ~ In 59 (target_framework content) /\ ~ In 60 (target_framework content).
Proof.
  unfold target_framework.
  destruct (tag_search (js "TargetFramework") content) as [g|] eqn:E1;
  [|destruct (tag_search (js "TargetFrameworks") content) as [g|] eqn:E2].
  1, 2: split; [apply take_until_fst_notin|];
        intros H; apply take_until_fst_sub in H; revert H;
        first [exact (tag_search_notin _ _ _ E1) | exact (tag_search_notin _ _ _ E2)].
  destruct (includes content (js "net4") || includes content (js "netframework")).
  - split; apply forallb_notin; reflexivity.
  - destruct (includes content (js "netstandard")); split; apply forallb_notin; reflexivity.
Qed.

(** No [<] of [pre] opens a [TargetFramework] tag, whatever the case of its
    letters: after each [<] the text differs from [TargetFramework] before
    the next [<] at the latest. *)
Fixpoint tag_free (tag pre : jstr) : bool :=
  match pre with
  | [] => true
  | c :: r => (negb (c =? 60) || negb (prefix_ci tag (r ++ [60]))) && tag_free tag r
  end.

Lemma fold_case_60 (c : Z) : fold_case c = 60 -> c = 60.
Proof. unfold fold_case. destruct ((65 <=? c) && (c <=? 90)) eqn:E; [|auto]. lia. Qed.

Lemma prefix_ci_refl (p r : jstr) : prefix_ci p (p ++ r) = true.
Proof. induction p as [|a p IH]; simpl; [reflexivity|]. rewrite Z.eqb_refl. exact IH. Qed.

Lemma prefix_ci_lt (p b x : jstr) :
  Forall (fun c => fold_case c <> 60) p ->
  prefix_ci p (b ++ [60]) = false -> prefix_ci p (b ++ 60 :: x) = false.
Proof.
  revert b. induction p as [|a p IH]; intros b Hp H; [discriminate|].
  inversion Hp as [|? ? Ha Hp']; subst.
  destruct b as [|y b]; simpl in *.
  - change (fold_case 60) with 60.
    replace (fold_case a =? 60) with false by (symmetry; apply Z.eqb_neq; exact Ha).
    reflexivity.
  - destruct (fold_case a =? fold_case y); simpl in *; [|reflexivity].
    apply IH; assumption.
Qed.

Lemma take_until_app (c : Z) (a b : jstr) :
  ~ In c a -> take_until c (a ++ c :: b) = (a, c :: b).
Proof.
  induction a as [|x a IH]; intros H; simpl; [rewrite Z.eqb_refl; reflexivity|].
  replace (x =? c) with false by (symmetry; apply Z.eqb_neq; intros ->; apply H; left; reflexivity).
  rewrite IH by (intros Hin; apply H; right; exact Hin). reflexivity.
Qed.

Lemma take_until_notin (c : Z) (a : jstr) : ~ In c a -> take_until c a = (a, []).
Proof.
  induction a as [|x a IH]; intros H; simpl; [reflexivity|].
  replace (x =? c) with false by (symmetry; apply Z.eqb_neq; intros ->; apply H; left; reflexivity).
  rewrite IH by (intros Hin; apply H; right; exact Hin). reflexivity.
Qed.

Lemma tag_search_element (tag pre v post : jstr) :
  Forall (fun c => fold_case c <> 60) tag ->
  tag_free tag pre = true -> v <> [] -> ~ In 60 v ->
  tag_search tag (pre ++ ((60 :: tag) ++ [62]) ++ v ++ (60 :: 47 :: tag ++ [62]) ++ post)
  = Some v.
Proof.
  intros Htag Hfree Hv Hv60. induction pre as [|c pre IH].
  - simpl app at 1. cbn [tag_search].
    unfold tag_match_at.
    replace (60 :: (tag ++ [62]) ++ v ++ 60 :: 47 :: (tag ++ [62]) ++ post)
      with ((60 :: tag) ++ (62 :: v ++ 60 :: 47 :: (tag ++ [62]) ++ post))
      by (simpl; rewrite <- !app_assoc; reflexivity).
    rewrite prefix_ci_refl, drop_app_length' by (simpl; lia).
    cbn [take_until snd]. rewrite Z.eqb_refl. cbn [snd].
    rewrite (take_until_app 60 v (47 :: (tag ++ [62]) ++ post) Hv60).
    destruct v as [|y v]; [contradiction|].
    change (60 :: 47 :: (tag ++ [62]) ++ post) with ((60 :: 47 :: tag ++ [62]) ++ post).
    rewrite prefix_ci_refl. reflexivity.
  - simpl in Hfree. apply andb_true_iff in Hfree as [Hc Hfree].
    change ((c :: pre) ++ ?X) with (c :: (pre ++ X)). cbn [tag_search].
    rewrite IH by exact Hfree.
    replace (tag_match_at tag (c :: pre ++ _)) with (@None jstr); [reflexivity|].
    unfold tag_match_at. cbn [prefix_ci].
    destruct (fold_case 60 =? fold_case c) eqn:E60; simpl; [|reflexivity].
    apply Z.eqb_eq in E60. cbn in E60. symmetry in E60. apply fold_case_60 in E60. subst c.
    rewrite Z.eqb_refl in Hc. simpl in Hc. apply negb_true_iff in Hc.
    rewrite (prefix_ci_lt tag pre _ Htag Hc). reflexivity.
Qed.

(** When the first [TargetFramework] element of a project file holds a
    single framework [v], [getProjectInfo] reports [v] as it is written,
    line breaks and spaces included: the value is not trimmed. *)
Theorem target_framework_verbatim (pre v post : jstr) :
  tag_free (js "TargetFramework") pre = true -> v <> [] -> ~ In 60 v -> ~ In 59 v ->
  target_framework (pre ++ js "<TargetFramework>" ++ v ++ js "</TargetFramework>" ++ post) = v.
Proof.
  intros Hfree Hv H60 H59. unfold target_framework.
  change (js "<TargetFramework>") with ((60 :: js "TargetFramework") ++ [62]).
  change (js "</TargetFramework>") with (60 :: 47 :: js "TargetFramework" ++ [62]).
  rewrite tag_search_element; [| |exact Hfree|exact Hv|exact H60].
  2: { apply List.Forall_forall. intros c Hc.
       assert (Hb : forallb (fun c => negb (fold_case c =? 60)) (js "TargetFramework") = true)
         by reflexivity.
       rewrite forallb_forall in Hb. specialize (Hb c Hc).
       apply negb_true_iff, Z.eqb_neq in Hb. exact Hb. }
  unfold first_framework. rewrite take_until_notin by exact H59. reflexivity.
Qed.

Lemma target_framework_verbatim_witness :
  tag_free (js "TargetFramework") (js "<Project><PropertyGroup>") = true /\
  js "net8.0 " ++ [10] <> [] /\ ~ In 60 (js "net8.0 " ++ [10]) /\ ~ In 59 (js "net8.0 " ++ [10]) /\
  target_framework (js "<Project><PropertyGroup>" ++ js "<TargetFramework>" ++ (js "net8.0 " ++ [10])
                    ++ js "</TargetFramework>" ++ js "</PropertyGroup></Project>")
  = js "net8.0 " ++ [10].
Proof.
  assert (H1 : tag_free (js "TargetFramework") (js "<Project><PropertyGroup>") = true)
    by reflexivity.
  assert (H3 : ~ In 60 (js "net8.0 " ++ [10])) by (apply forallb_notin; reflexivity).
  assert (H4 : ~ In 59 (js "net8.0 " ++ [10])) by (apply forallb_notin; reflexivity).
  assert (H2 : js "net8.0 " ++ [10] <> []) by (vm_compute; discriminate).
  split; [exact H1|]. split; [exact H2|]. split; [exact H3|]. split; [exact H4|].
  exact (target_framework_verbatim _ _ _ H1 H2 H3 H4).
Defined.

Lemma or_else_nonempty (x : option jstr) (fallback : jstr) :
  fallback <> [] -> or_else x fallback <> [].
Proof. intros H. destruct x as [[|c s]|]; simpl; [exact H|discriminate|exact H]. Qed.

(** A failed build always reports some text, and so does the notification
    built from it: the fallbacks [error.message] and ['Build failed'] (and
    ['Unknown error'] in [executeCommand]) cover empty command output. *)
Theorem build_failure_text_nonempty (e : ExecError) :
  buildProject_error (executeCommand_error e) <> [] /\
  short_error (Some (buildProject_error (executeCommand_error e))) <> [].
Proof.
  assert (Hb : buildProject_error (executeCommand_error e) <> []).
  { unfold buildProject_error. apply or_else_nonempty, or_else_nonempty. discriminate. }
  split; [exact Hb|].
  unfold short_error.
  set (m := or_else (Some (buildProject_error (executeCommand_error e))) (js "Build failed")).
  assert (Hm : m <> []) by (apply or_else_nonempty; discriminate).

  match goal with
  | |- context [List.filter ?g (split_nl m)] =>
      pose proof (fun l H => proj2 (proj1 (List.filter_In g l (split_nl m)) H)) as Hl;
      destruct (List.filter g (split_nl m)) as [|l ls]
  end; [exact Hm|].
  assert (Hl0 : l <> []).
  { specialize (Hl l (or_introl eq_refl)). cbv beta in Hl.
    apply negb_true_iff, bool_decide_eq_false in Hl. intros ->. apply Hl. reflexivity. }
  destruct ls as [|l2 ls]; simpl; [exact Hl0|].
  destruct l as [|c l]; [contradiction|discriminate].
Qed.

Lemma split_on_notin (sep : Z) (w : jstr) : ~ In sep w -> split_on sep w = [w].
Proof.
  induction w as [|c w IH]; intros H; simpl; [reflexivity|].
  replace (c =? sep) with false by (symmetry; apply Z.eqb_neq; intros ->; apply H; left; reflexivity).
  rewrite IH by (intros Hin; apply H; right; exact Hin). reflexivity.
Qed.

Lemma split_on_app (sep : Z) (w r : jstr) :
  ~ In sep w -> split_on sep (w ++ sep :: r) = w :: split_on sep r.
Proof.
  induction w as [|c w IH]; intros H; simpl; [rewrite Z.eqb_refl; reflexivity|].
  replace (c =? sep) with false by (symmetry; apply Z.eqb_neq; intros ->; apply H; left; reflexivity).
  rewrite IH by (intros Hin; apply H; right; exact Hin). reflexivity.
Qed.

Lemma split_on_join (sep : Z) (ws : list jstr) :
  ws <> [] -> Forall (fun w => ~ In sep w) ws -> split_on sep (join_with [sep] ws) = ws.
Proof.
  induction ws as [|w ws IH]; intros Hne H; [contradiction|].
  inversion H as [|? ? Hw Hws]; subst.
  destruct ws as [|w2 ws]; [simpl; apply split_on_notin; exact Hw|].
  change (join_with [sep] (w :: w2 :: ws)) with (w ++ [sep] ++ join_with [sep] (w2 :: ws)).
  simpl app at 2. rewrite split_on_app by exact Hw. f_equal. apply IH; [discriminate|exact Hws].
Qed.

Lemma split_on_pieces (sep : Z) (s : jstr) : Forall (fun w => ~ In sep w) (split_on sep s).
Proof.
  induction s as [|c s IH]; simpl; [repeat constructor; intros []|].
  destruct (c =? sep) eqn:E; [constructor; [intros []|exact IH]|].
  destruct (split_on sep s) as [|w ws]; [repeat constructor; simpl; intros [->|[]]; rewrite Z.eqb_refl in E; discriminate|].
  inversion IH as [|? ? Hw Hws]; subst. constructor; [|exact Hws].
  intros [->|Hin]; [rewrite Z.eqb_refl in E; discriminate|exact (Hw Hin)].
Qed.

Lemma filter_nonempty_all (ws : list jstr) :
  Forall (fun w => nonempty w = true) ws -> List.filter nonempty ws = ws.
Proof.
  induction 1 as [|w ws Hw _ IH]; simpl; [reflexivity|]. rewrite Hw, IH. reflexivity.
Qed.

Lemma filter_nonempty_spec (ws : list jstr) :
  Forall (fun w => nonempty w = true) (List.filter nonempty ws).
Proof.
  induction ws as [|w ws IH]; simpl; [constructor|].
  destruct (nonempty w) eqn:E; [constructor; assumption|exact IH].
Qed.

Lemma tokens_roundtrip (a : jstr) :
  let ts := List.filter nonempty (split_on 32 a) in
  ts <> [] -> List.filter nonempty (split_on 32 (join_with (js " ") ts)) = ts.
Proof.
  intros ts Hts. change (js " ") with [32].
  rewrite split_on_join; [apply filter_nonempty_all, filter_nonempty_spec|exact Hts|].
  apply List.Forall_forall. intros w Hw. apply List.filter_In in Hw as [Hw _].
  exact (proj1 (List.Forall_forall _ _) (split_on_pieces 32 a) w Hw).
Qed.

Lemma join_nonempty (ts : list jstr) :
  Forall (fun w => nonempty w = true) ts -> ts <> [] -> join_with (js " ") ts <> [].
Proof.
  intros H Hne. destruct ts as [|t ts]; [contradiction|].
  inversion H as [|? ? Ht _]; subst. unfold nonempty in Ht.
  apply negb_true_iff, bool_decide_eq_false in Ht.
  destruct t as [|c t]; [contradiction|]. destruct ts; discriminate.
Qed.

(** The arguments the debugger is launched with are exactly the non-empty
    space-separated words of the profile's [commandLineArgs], in order:
    the normalisation by [getProfileCommandLineArgs] and the second split
    in [createLaunchConfiguration] lose nothing and add nothing. *)
Theorem launch_args_words (commandLineArgs : option jstr) :
  launch_args commandLineArgs = List.filter nonempty (split_on 32 (default [] commandLineArgs)).
Proof.
  unfold launch_args, getProfileCommandLineArgs.
  destruct commandLineArgs as [[|c a]|]; [reflexivity| |reflexivity]. simpl default.
  destruct (List.filter nonempty (split_on 32 (c :: a))) as [|t ts] eqn:E.
  - reflexivity.
  - pose proof (join_nonempty (t :: ts)) as Hj. rewrite <- E in Hj |- *.
    destruct (join_with (js " ") _) as [|x y] eqn:J.
    + exfalso. apply Hj; [apply filter_nonempty_spec|rewrite E; discriminate|reflexivity].
    + rewrite <- J. apply tokens_roundtrip. rewrite E. discriminate.
Qed.

(** [getProfileCommandLineArgs] is a normal form: applied to its own
    result it changes nothing. *)
Theorem command_line_args_idempotent (commandLineArgs : option jstr) :
  getProfileCommandLineArgs (Some (getProfileCommandLineArgs commandLineArgs))
  = getProfileCommandLineArgs commandLineArgs.
Proof.
  unfold getProfileCommandLineArgs at 2.
  destruct commandLineArgs as [[|c a]|]; try reflexivity.
  destruct (List.filter nonempty (split_on 32 (c :: a))) as [|t ts] eqn:E;
    [unfold getProfileCommandLineArgs; rewrite E; reflexivity|].
  pose proof (join_nonempty (t :: ts)) as Hj. rewrite <- E in Hj |- *.
  destruct (join_with (js " ") _) as [|x y] eqn:J.
  - exfalso. apply Hj; [apply filter_nonempty_spec|rewrite E; discriminate|reflexivity].
  - unfold getProfileCommandLineArgs. rewrite <- J, tokens_roundtrip; [reflexivity|].
    rewrite E. discriminate.
Qed.

End CliFacts.
(** * Project detection: the project list and the selected project *)
Module DetectorFacts.

Import Cli Detector.




Definition app_project : DotNetProject :=
  mkProject (js "/w/App/App.csproj") (js "App") Console (js "net8.0") false.




(** When detection runs but no project can be loaded (every file found is
    a [.sln] file, is missing, or fails to parse), the project list is
    emptied while the previously selected project stays selected. *)
Theorem detect_nothing_keeps_current (projectFiles : list jstr)
    (load : jstr -> option DotNetProject) (st : DetectorState) :
  Forall (fun f => load f = None) projectFiles ->
  projects (detectProjects true true projectFiles load st) = [] /\
  currentProject (detectProjects true true projectFiles load st) = currentProject st.
Proof.
  intros H. assert (D : detected load projectFiles = []).
  { induction H as [|f fs Hf _ IH]; [reflexivity|]. simpl. rewrite Hf. exact IH. }
  unfold detectProjects. simpl negb. cbv iota.
  destruct projectFiles as [|f fs]; [split; reflexivity|]. rewrite D. split; reflexivity.
Qed.

Lemma detect_nothing_keeps_current_witness :
  Forall (fun f => load_project (fun _ => true) (fun _ => js "App") (fun _ => Some [])
                                f = None) [js "/w/App.sln"] /\
  currentProject (detectProjects true true [js "/w/App.sln"]
                    (load_project (fun _ => true) (fun _ => js "App") (fun _ => Some []))
                    (mkDetector [app_project] (Some app_project))) = Some app_project.
Proof.
  assert (H : Forall (fun f => load_project (fun _ => true) (fun _ => js "App") (fun _ => Some [])
                                            f = None) [js "/w/App.sln"])
    by (apply List.Forall_cons; [vm_compute; reflexivity|apply List.Forall_nil]).
  split; [exact H|].
  exact (proj2 (detect_nothing_keeps_current _ _ (mkDetector [app_project] (Some app_project)) H)).
Defined.

End DetectorFacts.
(** * Coverage reports: which file is read, what each parser stores *)
Module CoverageReportFacts.

Import Coverage CoverageReport.

(** [parseCoverageReport] reads a report with the LCOV parser exactly when
    [coverage.lcov] exists, neither [coverage.cobertura.xml] nor
    [coverage.json] exists beside it, and the format setting is neither
    [cobertura] nor [json]; an LCOV file in the [coverage] folder is never
    looked for. *)
Theorem lcov_report_choice (format : jstr) (existsSync : jstr -> bool) :
  parseCoverageReport_choice format existsSync = Some Lcov <->
  existsSync (js "coverage.cobertura.xml") = false /\ existsSync (js "coverage.json") = false /\
  existsSync (js "coverage.lcov") = true /\
  format <> js "cobertura" /\ format <> js "json".
Proof.
  unfold parseCoverageReport_choice, report_file, coverageFiles. cbn [find].
  unfold parseCoverageFile_choice.
  destruct (existsSync (js "coverage.cobertura.xml")) eqn:E1;
  [|destruct (existsSync (js "coverage.json")) eqn:E2;
    [|destruct (existsSync (js "coverage.lcov")) eqn:E3;
      [|destruct (existsSync (js "coverage/coverage.cobertura.xml")) eqn:E4;
        [|destruct (existsSync (js "coverage/coverage.json")) eqn:E5]]]];
  destruct (bool_decide (format = js "cobertura")) eqn:B1;
  destruct (bool_decide (format = js "json")) eqn:B2;
  destruct (bool_decide (format = js "lcov")) eqn:B3;
  apply bool_decide_eq_true in B1 || apply bool_decide_eq_false in B1;
  apply bool_decide_eq_true in B2 || apply bool_decide_eq_false in B2;
  vm_compute; split; intros H;
  repeat match goal with
         | H : _ /\ _ |- _ => destruct H
         end;
  try discriminate; try contradiction;
  try (repeat split; first [reflexivity | assumption]).
Qed.

(** The store after inserting the entries of [l] in order, at one key. *)
Definition last_with {A : Type} (key : A -> jstr) (f : jstr) (l : list A) : option A :=
  hd_error (rev (List.filter (fun x => bool_decide (key x = f)) l)).

Lemma fold_insert_lookup {A : Type} (key : A -> jstr) (val : A -> CoverageData)
    (l : list A) (m : Store) (f : jstr) :
  fold_left (fun m x => <[key x := val x]> m) l m !! f =
  match last_with key f l with Some x => Some (val x) | None => m !! f end.
Proof.
  unfold last_with. induction l as [|x l IH] using rev_ind; [reflexivity|].
  rewrite fold_left_app, List.filter_app, rev_app_distr. cbn [fold_left List.filter].
  destruct (decide (key x = f)) as [<-|Hne].
  - rewrite lookup_insert_eq, bool_decide_true by reflexivity. reflexivity.
  - rewrite lookup_insert_ne by exact Hne. rewrite bool_decide_false by exact Hne.
    exact IH.
Qed.

Lemma fold_nested {A B : Type} (g : Store -> B -> Store) (h : A -> list B) (ys : list A) (m : Store) :
  fold_left (fun m y => fold_left g (h y) m) ys m = fold_left g (concat (map h ys)) m.
Proof.
  revert m. induction ys as [|y ys IH]; intros m; [reflexivity|].
  simpl. rewrite fold_left_app. apply IH.
Qed.

Lemma fold_left_ext {A B : Type} (g1 g2 : A -> B -> A) (l : list B) (a : A) :
  (forall a x, g1 a x = g2 a x) -> fold_left g1 l a = fold_left g2 l a.
Proof.
  intros H. revert a. induction l as [|x l IH]; intros a; simpl; [reflexivity|].
  rewrite H. apply IH.
Qed.

(** Within one Cobertura or JSON report, the record stored for a file
    comes from the last class (document) of the report with that file
    name, over all packages (modules) in order; a file the report does not
    name keeps the record it had. *)
Theorem report_last_entry_wins (packages : list XmlPackage) (modules : list JsonModule)
    (m : Store) (f : jstr) :
  parseCoberturaReport packages m !! f =
    match last_with x_filename f (concat (map x_classes packages)) with
    | Some cls => Some (cobertura_class cls)
    | None => m !! f
    end /\
  parseJsonReport modules m !! f =
    match last_with fst f (concat (map j_documents modules)) with
    | Some entry => Some (json_document entry.1 entry.2)
    | None => m !! f
    end.
Proof.
  split.
  - unfold parseCoberturaReport.
    rewrite (fold_nested (fun m cls => <[x_filename cls := cobertura_class cls]> m) x_classes).
    apply fold_insert_lookup.
  - unfold parseJsonReport.
    rewrite (fold_nested (fun m entry => json_insert entry m) j_documents).
    rewrite (fold_left_ext _ (fun m (x : jstr * JsonDocument) => <[fst x := json_document x.1 x.2]> m))
      by (intros a [p d]; reflexivity).
    apply fold_insert_lookup.
Qed.

(** An LCOV file whose lines all end in a carriage return (CRLF line
    endings) changes nothing: no line equals [end_of_record], so no record
    is ever stored. *)
Theorem lcov_crlf_stores_nothing (content : jstr) (m : Store) :
  Forall (fun l => l = [] \/ exists l', l = l' ++ [13]) (split_nl content) ->
  parseLcovReport content m = m.
Proof.
  intros H. unfold parseLcovReport. rewrite CoverageFacts.lcov_run_store; [reflexivity|].
  eapply Forall_impl; [exact H|]. cbv beta.
  intros l [->|[l' ->]] E; [discriminate|].
  assert (Hl : List.last (l' ++ [13]) 0 = List.last (js "end_of_record") 0)
    by (rewrite E; reflexivity).
  rewrite List.last_last in Hl. discriminate.
Qed.

Lemma lcov_crlf_stores_nothing_witness :
  Forall (fun l => l = [] \/ exists l', l = l' ++ [13])
         (split_nl (js "SF:a.cs" ++ [13; 10] ++ js "DA:1,1" ++ [13; 10]
                    ++ js "end_of_record" ++ [13; 10])) /\
  parseLcovReport (js "SF:a.cs" ++ [13; 10] ++ js "DA:1,1" ++ [13; 10]
                   ++ js "end_of_record" ++ [13; 10]) ∅ = ∅.
Proof.
  assert (H : Forall (fun l => l = [] \/ exists l', l = l' ++ [13])
         (split_nl (js "SF:a.cs" ++ [13; 10] ++ js "DA:1,1" ++ [13; 10]
                    ++ js "end_of_record" ++ [13; 10]))).
  { let v := eval vm_compute in (split_nl (js "SF:a.cs" ++ [13; 10] ++ js "DA:1,1" ++ [13; 10]
                                           ++ js "end_of_record" ++ [13; 10])) in
    change (Forall (fun l => l = [] \/ exists l', l = l' ++ [13]) v).
    repeat apply List.Forall_cons; try apply List.Forall_nil; cbv beta;
    first [left; reflexivity
          | right; match goal with |- exists l', ?l = _ => exists (removelast l) end;
            vm_compute; reflexivity]. }
  split; [exact H|]. exact (lcov_crlf_stores_nothing _ ∅ H).
Defined.

(** Every stored percentage lies in [0, 100]. *)
Definition pct_bounded (m : Store) : Prop :=
  forall k d, m !! k = Some d -> (0 <= coverage d <= 100)%Q.

Lemma stdpp_filter_length (ls : list LineInfo) :
  (length (filter (fun l => covered l) ls) <= length ls)%nat.
Proof. apply length_filter. Qed.

Lemma lines_percentage_bounded (ls : list LineInfo) :
  (0 < length ls)%nat -> (0 <= lines_percentage ls <= 100)%Q.
Proof.
  intros Hn. unfold lines_percentage.
  pose proof (stdpp_filter_length ls) as Hc.
  set (a := inject_Z (Z.of_nat (length (filter (fun l => covered l) ls)))).
  set (b := inject_Z (Z.of_nat (length ls))).
  assert (Hb : (0 < b)%Q) by (unfold b, Qlt; simpl; lia).
  assert (Ha0 : (0 <= a)%Q) by (unfold a, Qle; simpl; lia).
  assert (Hab : (a <= b)%Q) by (unfold a, b; rewrite <- Zle_Qle; lia).
  split.
  - apply Qmult_le_0_compat; [|discriminate]. apply Qle_shift_div_l; [exact Hb|].
    rewrite Qmult_0_l. exact Ha0.
  - assert (H1 : (a / b <= 1)%Q) by (apply Qle_shift_div_r; [exact Hb|rewrite Qmult_1_l; exact Hab]).
    apply (Qmult_le_compat_r _ _ 100) in H1; [|discriminate].
    rewrite Qmult_1_l in H1. exact H1.
Qed.

Lemma lcov_step_bounded (l : jstr) (st : LcovState) :
  CoverageFacts.lcov_inv st -> pct_bounded (store st) -> pct_bounded (store (lcov_step l st)).
Proof.
  intros Hi Hb. unfold lcov_step.
  destruct (startsWith l (js "SF:")); [exact Hb|].
  destruct (currentCoverage st) as [c|] eqn:E; [|exact Hb].
  destruct (startsWith l (js "DA:")).
  - destruct (match_DA l) as [[n h]|]; exact Hb.
  - destruct (bool_decide (l = js "end_of_record")); [|exact Hb].
    simpl. intros k d Hk. destruct (decide (currentFile st = k)) as [<-|Hne].
    + rewrite lookup_insert_eq in Hk. injection Hk as <-. unfold close_record.
      destruct (bool_decide (0 < length (lines c))%nat) eqn:B.
      * apply bool_decide_eq_true in B. apply lines_percentage_bounded. exact B.
      * destruct (Hi c E) as [_ ->]. split; discriminate.
    + rewrite lookup_insert_ne in Hk by exact Hne. exact (Hb k d Hk).
Qed.

(** The LCOV parser keeps every stored percentage within [0, 100]: the
    records it stores have a percentage computed from their lines, or 0. *)
Theorem lcov_percentages_bounded (content : jstr) (m : Store) :
  pct_bounded m -> pct_bounded (parseLcovReport content m).
Proof.
  intros Hm. unfold parseLcovReport.
  assert (Hi : CoverageFacts.lcov_inv (lcov_init m)) by apply CoverageFacts.lcov_init_inv.
  assert (Hs : pct_bounded (store (lcov_init m))) by exact Hm.
  revert Hi Hs. unfold lcov_run. generalize (lcov_init m) as st.
  induction (split_nl content) as [|l ls IH]; intros st Hi Hs; simpl; [exact Hs|].
  apply IH; [apply CoverageFacts.lcov_step_inv; exact Hi|apply lcov_step_bounded; assumption].
Qed.

Lemma pct_bounded_empty : pct_bounded ∅.
Proof. intros k d H. rewrite lookup_empty in H. discriminate. Qed.

Lemma lcov_percentages_bounded_witness :
  pct_bounded ∅ /\
  pct_bounded (parseLcovReport (join_nl [js "SF:a.cs"; js "DA:1,1"; js "DA:2,0";
                                         js "end_of_record"]) ∅).
Proof.
  split; [exact pct_bounded_empty|].
  exact (lcov_percentages_bounded _ ∅ pct_bounded_empty).
Defined.

Lemma sum_bounded (l : list (jstr * CoverageData)) :
  Forall (fun kc => (0 <= coverage kc.2 <= 100)%Q) l ->
  (0 <= foldr (uncurry (fun _ c total => total + coverage c)) 0 l
     <= inject_Z (100 * Z.of_nat (length l)))%Q.
Proof.
  induction 1 as [|[k c] l Hc _ IH]; [split; discriminate|].
  cbn [foldr uncurry snd length] in Hc |- *. destruct Hc as [Hc0 Hc1]. destruct IH as [IH0 IH1].
  split.
  - apply (Qle_trans _ (0 + 0)); [discriminate|apply Qplus_le_compat; assumption].
  - rewrite Nat2Z.inj_succ, Z.mul_succ_r, inject_Z_plus.
    apply Qplus_le_compat; assumption.
Qed.

(** When every stored percentage lies in [0, 100], so does the overall
    coverage shown in the status bar. *)
Theorem overall_coverage_bounded (m : Store) :
  pct_bounded m -> (0 <= getOverallCoverage m <= 100)%Q.
Proof.
  intros Hm. unfold getOverallCoverage.
  destruct (decide (size m = 0%nat)) as [H0|H0].
  - rewrite bool_decide_true by exact H0. split; discriminate.
  - rewrite bool_decide_false by exact H0. rewrite map_fold_foldr.
    rewrite <- length_map_to_list in H0 |- *.
    assert (HF : Forall (fun kc => (0 <= coverage kc.2 <= 100)%Q) (map_to_list m)).
    { apply List.Forall_forall. intros [k d] Hin.
      apply (Hm k d). apply elem_of_map_to_list. apply list_elem_of_In. exact Hin. }
    destruct (sum_bounded _ HF) as [S0 S1].
    set (n := inject_Z (Z.of_nat (length (map_to_list m)))) in *.
    assert (Hn : (0 < n)%Q) by (unfold n, Qlt; simpl; lia).
    split.
    + apply Qle_shift_div_l; [exact Hn|]. rewrite Qmult_0_l. exact S0.
    + apply Qle_shift_div_r; [exact Hn|]. rewrite inject_Z_mult in S1. exact S1.
Qed.

Definition sample_store : Store :=
  <[js "a.cs" := mkCov (js "a.cs") 100 [mkLine 1 true]]>
  (<[js "b.cs" := mkCov (js "b.cs") 50 [mkLine 1 true; mkLine 2 false]]> ∅).

Lemma sample_store_bounded : pct_bounded sample_store.
Proof.
  intros k d H. unfold sample_store in H.
  destruct (decide (js "a.cs" = k)) as [<-|Ha].
  - rewrite lookup_insert_eq in H. injection H as <-. split; discriminate.
  - rewrite lookup_insert_ne in H by exact Ha.
    destruct (decide (js "b.cs" = k)) as [<-|Hb].
    + rewrite lookup_insert_eq in H. injection H as <-. split; discriminate.
    + rewrite lookup_insert_ne, lookup_empty in H by exact Hb. discriminate.
Qed.

Lemma overall_coverage_bounded_witness :
  pct_bounded sample_store /\ (0 <= getOverallCoverage sample_store <= 100)%Q.
Proof.
  split; [exact sample_store_bounded|].
  exact (overall_coverage_bounded sample_store sample_store_bounded).
Defined.

End CoverageReportFacts.

(** * Launch configuration: working directory and program path *)
Module LaunchFacts.

Import Cli Launch.

(** Literal replacement of every [tok], left to right without overlap, by
    [rep] taken as plain text: what [$(ProjectDir)] is meant to expand to. *)
Fixpoint substitute_go (fuel : nat) (tok rep s : jstr) : jstr :=
  match fuel with
  | O => s
  | S f =>
      match s with
      | [] => []
      | c :: r =>
          if prefixb tok s then rep ++ substitute_go f tok rep (drop (length tok) s)
          else c :: substitute_go f tok rep r
      end
  end.

Definition substitute_literally (tok rep s : jstr) : jstr := substitute_go (S (length s)) tok rep s.

Lemma get_substitution_plain (rep matched before after : jstr) :
  ~ In 36 rep -> get_substitution rep matched before after = rep.
Proof.
  induction rep as [|c r IH]; intros H; [reflexivity|]. simpl.
  replace (c =? 36) with false by (symmetry; apply Z.eqb_neq; intros ->; apply H; left; reflexivity).
  rewrite IH by (intros Hin; apply H; right; exact Hin). reflexivity.
Qed.

Lemma replace_go_plain (tok rep full : jstr) (fuel pos : nat) (s : jstr) :
  ~ In 36 rep -> replace_go fuel tok rep full pos s = substitute_go fuel tok rep s.
Proof.
  intros H. revert pos s. induction fuel as [|f IH]; intros pos s; [reflexivity|].
  destruct s as [|c r]; [reflexivity|]. simpl.
  destruct (prefixb tok (c :: r)).
  - rewrite get_substitution_plain by exact H. rewrite IH. reflexivity.
  - rewrite IH. reflexivity.
Qed.

Lemma replace_all_plain (tok rep s : jstr) :
  ~ In 36 rep -> replace_all tok rep s = substitute_literally tok rep s.
Proof. intros H. apply replace_go_plain. exact H. Qed.

(** When the project directory contains no [$], the working directory of a
    launch profile is its [workingDirectory] with every [$(ProjectDir)] and
    then every [${ProjectDir}] replaced by the project directory as plain
    text, resolved against the project directory when not absolute. *)
Theorem working_directory_expands (isAbsolute : jstr -> bool) (resolve : jstr -> jstr -> jstr)
    (wd projectDir : jstr) :
  wd <> [] -> ~ In 36 projectDir ->
  getProfileWorkingDirectory isAbsolute resolve (Some wd) projectDir =
  Some (let w := substitute_literally brace_token projectDir
                   (substitute_literally paren_token projectDir wd) in
        if isAbsolute w then w else resolve projectDir w).
Proof.
  intros Hwd Hd. destruct wd as [|c w]; [contradiction|].
  unfold getProfileWorkingDirectory. rewrite !replace_all_plain by exact Hd. reflexivity.
Qed.

Lemma working_directory_expands_witness :
  js "$(ProjectDir)/bin" <> [] /\ ~ In 36 (js "/src/App") /\
  getProfileWorkingDirectory (fun _ => true) (fun _ w => w) (Some (js "$(ProjectDir)/bin"))
                             (js "/src/App") = Some (js "/src/App/bin").
Proof.
  assert (H1 : js "$(ProjectDir)/bin" <> []) by (vm_compute; discriminate).
  assert (H2 : ~ In 36 (js "/src/App")) by (apply CliFacts.forallb_notin; reflexivity).
  split; [exact H1|]. split; [exact H2|].
  rewrite (working_directory_expands _ _ _ _ H1 H2). vm_compute. reflexivity.
Defined.

Lemma prefixb_In (p s : jstr) (x : Z) : prefixb p s = true -> In x p -> In x s.
Proof.
  revert s. induction p as [|a p IH]; intros s H Hx; [destruct Hx|].
  destruct s as [|b s]; [discriminate|]. simpl in H. apply andb_true_iff in H as [Hab H].
  apply Z.eqb_eq in Hab. subst b. destruct Hx as [->|Hx]; [left; reflexivity|].
  right. exact (IH s H Hx).
Qed.

Lemma includes_In (s p : jstr) (x : Z) : includes s p = true -> In x p -> In x s.
Proof.
  induction s as [|c s IH]; intros H Hx; simpl in H; apply orb_true_iff in H as [H|H].
  - exact (prefixb_In _ _ _ H Hx).
  - discriminate.
  - exact (prefixb_In _ _ _ H Hx).
  - right. exact (IH H Hx).
Qed.

Lemma replace_go_absent (fuel : nat) (tok rep full : jstr) (pos : nat) (s : jstr) :
  includes s tok = false -> replace_go fuel tok rep full pos s = s.
Proof.
  revert fuel pos. induction s as [|c r IH]; intros fuel pos H; destruct fuel; try reflexivity.
  simpl in H |- *. apply orb_false_iff in H as [H1 H2]. rewrite H1, IH by exact H2. reflexivity.
Qed.

Lemma replace_brace_absent (rep s : jstr) : ~ In 123 s -> replace_all brace_token rep s = s.
Proof.
  intros H. apply replace_go_absent. destruct (includes s brace_token) eqn:E; [|reflexivity].
  exfalso. apply H. apply (includes_In _ _ _ E). right. left. reflexivity.
Qed.

Lemma get_substitution_app (a r matched before after : jstr) :
  ~ In 36 a ->
  get_substitution (a ++ r) matched before after = a ++ get_substitution r matched before after.
Proof.
  induction a as [|c a IH]; intros H; [reflexivity|]. simpl.
  replace (c =? 36) with false by (symmetry; apply Z.eqb_neq; intros ->; apply H; left; reflexivity).
  rewrite IH by (intros Hin; apply H; right; exact Hin). reflexivity.
Qed.

Lemma not_in_app (x : Z) (a b : jstr) : ~ In x a -> ~ In x b -> ~ In x (a ++ b).
Proof. intros Ha Hb Hin. apply in_app_or in Hin as [Hin|Hin]; contradiction. Qed.

(** A working directory of exactly [$(ProjectDir)] does not become the
    project directory when that directory contains a [$] pattern of
    [String.prototype.replace]: a [$$] in it turns into a single [$], and a
    [$&] brings back the unexpanded [$(ProjectDir)]. *)
Theorem working_directory_dollar_patterns (isAbsolute : jstr -> bool)
    (resolve : jstr -> jstr -> jstr) (a b : jstr) :
  ~ In 36 a -> ~ In 36 b -> ~ In 123 a -> ~ In 123 b ->
  getProfileWorkingDirectory isAbsolute resolve (Some paren_token) (a ++ js "$$" ++ b) =
    Some (if isAbsolute (a ++ js "$" ++ b) then a ++ js "$" ++ b
          else resolve (a ++ js "$$" ++ b) (a ++ js "$" ++ b)) /\
  getProfileWorkingDirectory isAbsolute resolve (Some paren_token) (a ++ js "$&" ++ b) =
    Some (if isAbsolute (a ++ paren_token ++ b) then a ++ paren_token ++ b
          else resolve (a ++ js "$&" ++ b) (a ++ paren_token ++ b)).
Proof.
  intros Ha Hb Ha' Hb'.
  assert (Hp : ~ In 123 paren_token) by (apply CliFacts.forallb_notin; reflexivity).
  split.
  - assert (E : replace_all paren_token (a ++ js "$$" ++ b) paren_token = a ++ js "$" ++ b).
    { unfold replace_all. cbn -[get_substitution app].
      rewrite get_substitution_app by exact Ha. cbn [get_substitution app Z.eqb].
      rewrite get_substitution_plain by exact Hb. rewrite app_nil_r. reflexivity. }
    unfold getProfileWorkingDirectory. cbv zeta. rewrite E.
    rewrite replace_brace_absent; [reflexivity|].
    apply not_in_app; [exact Ha'|]. intros [H|H]; [discriminate|exact (Hb' H)].
  - assert (E : replace_all paren_token (a ++ js "$&" ++ b) paren_token = a ++ paren_token ++ b).
    { unfold replace_all. cbn -[get_substitution app paren_token].
      rewrite get_substitution_app by exact Ha. cbn [get_substitution app Z.eqb].
      rewrite get_substitution_plain by exact Hb. rewrite app_nil_r. reflexivity. }
    unfold getProfileWorkingDirectory. cbv zeta.
    change paren_token with (js "$(ProjectDir)") at 1. cbv zeta. fold paren_token. rewrite E.
    rewrite replace_brace_absent; [reflexivity|].
    apply not_in_app; [exact Ha'|]. apply not_in_app; [exact Hp|exact Hb'].
Qed.

Lemma working_directory_dollar_patterns_witness :
  ~ In 36 (js "/srv/a") /\ ~ In 36 (js "b/run") /\ ~ In 123 (js "/srv/a") /\ ~ In 123 (js "b/run") /\
  getProfileWorkingDirectory (fun _ => true) (fun _ w => w) (Some paren_token)
                             (js "/srv/a" ++ js "$$" ++ js "b/run") = Some (js "/srv/a$b/run").
Proof.
  assert (H1 : ~ In 36 (js "/srv/a")) by (apply CliFacts.forallb_notin; reflexivity).
  assert (H2 : ~ In 36 (js "b/run")) by (apply CliFacts.forallb_notin; reflexivity).
  assert (H3 : ~ In 123 (js "/srv/a")) by (apply CliFacts.forallb_notin; reflexivity).
  assert (H4 : ~ In 123 (js "b/run")) by (apply CliFacts.forallb_notin; reflexivity).
  split; [exact H1|]. split; [exact H2|]. split; [exact H3|]. split; [exact H4|].
  rewrite (proj1 (working_directory_dollar_patterns (fun _ => true) (fun _ w => w) _ _ H1 H2 H3 H4)).
  reflexivity.
Defined.

End LaunchFacts.

(** * Status bar: the test button *)
Module StatusBarFacts.

Import TestOutput TestStore StatusBar.

Lemma count_failed_pos (rs : list TestResult) :
  (0 < count_outcome Failed rs)%nat <-> existsb (fun r => outcome_eqb (outcome r) Failed) rs = true.
Proof.
  unfold count_outcome. induction rs as [|r rs IH]; simpl; [split; [lia|discriminate]|].
  destruct (outcome_eqb (outcome r) Failed); simpl; [split; [reflexivity|lia]|exact IH].
Qed.

(** After a test run the test button keeps its text when no result is
    stored; otherwise it shows [$(error)] exactly when some stored result,
    of any project, failed, and [$(check)] otherwise. *)
Theorem test_button_icon (m : ResultMap) (text : jstr) :
  (getTestResults None m = [] -> on_test_results_changed m text = text) /\
  (getTestResults None m <> [] ->
   prefixb (js "$(error)") (on_test_results_changed m text)
   = existsb (fun r => outcome_eqb (outcome r) Failed) (getTestResults None m)).
Proof.
  unfold on_test_results_changed, getTestSummary, updateTestStatus. cbn [TestStore.passed TestStore.failed TestStore.skipped TestStore.total].
  split.
  - intros ->. reflexivity.
  - intros H. destruct (getTestResults None m) as [|r rs] eqn:E; [contradiction|].
    cbv zeta. replace (0 <? length (r :: rs))%nat with true by reflexivity.
    destruct (existsb (fun r => outcome_eqb (outcome r) Failed) (r :: rs)) eqn:F.
    + apply count_failed_pos in F. apply Nat.ltb_lt in F. rewrite F. reflexivity.
    + destruct (0 <? count_outcome Failed (r :: rs))%nat eqn:G.
      * apply Nat.ltb_lt, count_failed_pos in G. congruence.
      * reflexivity.
Qed.

End StatusBarFacts.

(** * Test output parser: shape of the results *)
Module TestResultFacts.

Import TestOutput TestOutputFacts.

Definition trimmed (s : jstr) : Prop := trim s = s.

Definition result_trimmed (r : TestResult) : Prop :=
  trimmed (name r) /\ (forall e, errorMessage r = Some e -> trimmed e).

Definition parse_inv (st : ParseState) : Prop :=
  Forall result_trimmed (results st) /\
  (forall p, currentTest st = Some p ->
     trimmed (pt_name p) /\ (forall e, pt_errorMessage p = Some e -> trimmed e)).

Lemma seal_inv (o : Outcome) (st : ParseState) : parse_inv st -> parse_inv (seal o st).
Proof.
  intros H. unfold seal. destruct (currentTest st) as [p|] eqn:E; [|exact H].
  destruct H as [Hr Hc]. split; [|intros q Hq; discriminate].
  apply Forall_app. split; [exact Hr|]. apply List.Forall_cons; [|apply List.Forall_nil].
  destruct (Hc p E) as [Hn He]. split; [exact Hn|exact He].
Qed.

Lemma update_inv (f : PartialTest -> PartialTest) (st : ParseState) :
  (forall p, trimmed (pt_name p) -> (forall e, pt_errorMessage p = Some e -> trimmed e) ->
     trimmed (pt_name (f p)) /\ (forall e, pt_errorMessage (f p) = Some e -> trimmed e)) ->
  parse_inv st -> parse_inv (update f st).
Proof.
  intros Hf H. unfold update. destruct (currentTest st) as [p|] eqn:E; [|exact H].
  destruct H as [Hr Hc]. split; [exact Hr|]. intros q Hq. injection Hq as <-.
  destruct (Hc p E) as [Hn He]. exact (Hf p Hn He).
Qed.

Lemma step_inv (l : jstr) (f : list jstr) (st : ParseState) : parse_inv st -> parse_inv (step l f st).
Proof.
  intros H. unfold step. destruct (classify l) as [| | |n|n|d|m| |].
  - apply seal_inv. exact H.
  - apply seal_inv. exact H.
  - apply seal_inv. exact H.
  - destruct H as [Hr _]. split; [exact Hr|]. intros p Hp. injection Hp as <-.
    split; [apply TestStoreFacts.trim_idem|intros e He; discriminate].
  - apply update_inv; [|exact H]. intros p Hn He.
    destruct (bool_decide (pt_name p = [])); [|split; assumption].
    split; [apply TestStoreFacts.trim_idem|exact He].
  - destruct (Duration.search (trim d)) as [[v u]|]; [|exact H].
    apply update_inv; [|exact H]. intros p Hn He. split; assumption.
  - apply update_inv; [|exact H]. intros p Hn He. split; [exact Hn|].
    intros e Hm. injection Hm as <-. apply TestStoreFacts.trim_idem.
  - apply update_inv; [|exact H]. intros p Hn He. split; assumption.
  - exact H.
Qed.

Lemma run_inv (ls : list jstr) (st : ParseState) : parse_inv st -> parse_inv (run ls st).
Proof.
  revert st. induction ls as [|l ls IH]; intros st H; simpl; [exact H|].
  apply IH. apply step_inv. exact H.
Qed.

(** Every result of [parseTestResults] has a name without leading or
    trailing white space, and so has its error message when it has one. *)
Theorem results_trimmed (output : jstr) :
  Forall (fun r => trim (name r) = name r /\
                   (forall e, errorMessage r = Some e -> trim e = e))
         (parseTestResults output).
Proof.
  unfold parseTestResults.
  assert (H : parse_inv (run (split_nl output) init)).
  { apply run_inv. split; [apply List.Forall_nil|intros p Hp; discriminate]. }
  destruct H as [Hr _]. exact Hr.
Qed.



End TestResultFacts.
